(** * webaiscraper: a shallow embedding of [scraper.py] (class [AIScraper])

    Contents, in the order of the file:
    - strings, and in [Regex] the fragment of Python's [re] that
      [extract_emails] uses: literals and greedy repetitions of a character
      class, matched by backtracking and scanned left to right by [findall];
    - the world the scraper talks to: the answers of the search endpoint, of
      the target pages and of the chat endpoint, the console, the clock and the
      CSV file, recorded in a trace of timed events;
    - in [Scraper] the methods of [AIScraper], as state-passing functions in
      an error monad, written statement by statement after the source;
    - functions that read a trace, and a sample world to run the methods in;
    - the lemmas and theorems.

    Conventions.  A Python [str] is a Rocq [string], one [ascii] per
    character.  [None] is [option]'s [None].  An exception that leaves a method
    is the outcome [Raise]; an exception caught by a [try] is a constructor of
    the answer that the [try] block got.

    Time.  The instants of the wall clock are rationals; time passes while a
    request is under way and while the process sleeps, and does not pass
    otherwise.  What the program computes with are Python floats, that is
    IEEE 754 doubles ([PrimFloat]): the readings [time.time()] takes of the
    clock, [self.rate_limit], [self.last_request_time], the interval
    [1 / self.rate_limit] and the argument of [time.sleep], with the rounding
    of every operation.

    Library calls outside a [try].  [time.sleep] raises on an argument it
    cannot take; [os.makedirs] and [DataFrame.to_csv] raise [OSError] when the
    file system says so, and a write that fails counts as not made;
    [self.user_agent.random] and [BeautifulSoup(..).get_text()] return
    normally.  The progress bar [tqdm] draws on the standard error stream is
    left out of the trace. *)

From Stdlib Require Import Ascii String QArith.
From Stdlib Require Import PrimFloat FloatOps SpecFloat.
From stdpp Require Import base option list gmap strings.

Local Open Scope string_scope.
Local Open Scope list_scope.

(* ===================================================================== *)
(** ** Strings *)
(* ===================================================================== *)

(** The line feed of the f-string in [analyze_with_ai]. *)
Definition nl : string := String (Ascii.ascii_of_nat 10) "".

(** [s[:n]]: the first [n] characters of [s], all of [s] when it is shorter. *)
Fixpoint str_take (n : nat) (s : string) : string :=
  match n, s with
  | S n', String c s' => String c (str_take n' s')
  | _, _ => ""
  end.

(** [s[n:]]. *)
Fixpoint str_drop (n : nat) (s : string) : string :=
  match n, s with
  | S n', String _ s' => str_drop n' s'
  | _, _ => s
  end.

Arguments str_take : simpl nomatch.
Arguments str_drop : simpl nomatch.

(** Every character of [s] satisfies [cls]. *)
Fixpoint str_all (cls : ascii → bool) (s : string) : bool :=
  match s with
  | "" => true
  | String c s' => cls c && str_all cls s'
  end.

(* ===================================================================== *)
(** ** The regular expressions of [extract_emails] *)
(* ===================================================================== *)

Module Regex.

(** One item of a pattern: a literal character, or a character class under
    a greedy quantifier [{lo,}] ([+] is [{1,}]). *)
Inductive atom : Type :=
| Lit (c : ascii)
| Rep (cls : ascii → bool) (lo : nat).

Definition regex : Type := list atom.

(** [c] lies in the range [lo-hi] of a character class. *)
Definition in_range (lo hi c : ascii) : bool :=
  (Ascii.N_of_ascii lo <=? Ascii.N_of_ascii c)%N
  && (Ascii.N_of_ascii c <=? Ascii.N_of_ascii hi)%N.

Definition one_of (chars : string) (c : ascii) : bool :=
  bool_decide (c ∈ list_ascii_of_string chars).

(** [[a-zA-Z]] *)
Definition alpha (c : ascii) : bool :=
  in_range "a" "z" c || in_range "A" "Z" c.

(** [[a-zA-Z0-9._%+-]] *)
Definition local_part (c : ascii) : bool :=
  alpha c || in_range "0" "9" c || one_of "._%+-" c.

(** [[a-zA-Z0-9.-]] *)
Definition domain_part (c : ascii) : bool :=
  alpha c || in_range "0" "9" c || one_of ".-" c.

(** [r'[a-zA-Z0-9._%+-]+@[a-zA-Z0-9.-]+\.[a-zA-Z]{2,}'] *)
Definition email_pattern : regex :=
  [ Rep local_part 1; Lit "@"; Rep domain_part 1; Lit "."; Rep alpha 2 ].

(** Length of the longest prefix of [s] inside the class. *)
Fixpoint span (cls : ascii → bool) (s : string) : nat :=
  match s with
  | String c s' => if cls c then S (span cls s') else 0
  | "" => 0
  end.

(** A greedy repetition that can take at most [n] characters of [s]: try
    [n] of them, then [n-1], ... down to [lo], each time running the rest of
    the pattern [k] on what follows; the first success wins. *)
Fixpoint backtrack (k : string → option nat) (lo n : nat) (s : string)
  : option nat :=
  if (n <? lo)%nat then None
  else match k (str_drop n s) with
       | Some m => Some (n + m)%nat
       | None =>
           match n with
           | O => None
           | S n' => backtrack k lo n' s
           end
       end.

(** Match [p] at the start of [s]; the result is the length of the match
    the backtracking engine settles on. *)
Fixpoint match_here (p : regex) (s : string) : option nat :=
  match p with
  | [] => Some O
  | Lit c :: p' =>
      match s with
      | String c' s' =>
          if Ascii.eqb c c' then S <$> match_here p' s' else None
      | "" => None
      end
  | Rep cls lo :: p' => backtrack (match_here p') lo (span cls s) s
  end.

(** [scan p skip s]: the matches of [p] in [s], left to right and without
    overlap.  [skip] counts the characters of [s] that still belong to the
    previous match; once it is used up the engine tries a match at the
    current position and, on success, resumes behind it. *)
Fixpoint scan (p : regex) (skip : nat) (s : string) : list string :=
  match s with
  | "" => []
  | String _ s' =>
      match skip with
      | S k => scan p k s'
      | O =>
          match match_here p s with
          | Some n => str_take n s :: scan p (Nat.pred n) s'
          | None => scan p O s'
          end
      end
  end.

(** [re.findall(p, text)], for a pattern without groups that cannot match
    the empty string. *)
Definition findall (p : regex) (text : string) : list string := scan p O text.

(** What it means for a whole word to match a pattern, without any
    reference to the engine. *)
Inductive matches : regex → string → Prop :=
| matches_nil : matches [] ""
| matches_lit c p w :
    matches p w → matches (Lit c :: p) (String c w)
| matches_rep cls lo p u w :
    (lo ≤ String.length u)%nat → str_all cls u = true → matches p w →
    matches (Rep cls lo :: p) (u +:+ w).

(** [m] occurs in [s] as a contiguous piece. *)
Definition substring_of (m s : string) : Prop :=
  ∃ pre post, s = pre +:+ m +:+ post.

(** *** What [re.findall] reports, without any reference to the engine *)




End Regex.

(** [AIScraper.extract_emails]: [list(set(re.findall(email_pattern, text)))].
    The set is a [gset]; [elements] lists it in an order of its own, as
    Python's [list(set(..))] does. *)
Definition extract_emails (text : string) : list string :=
  elements (list_to_set (Regex.findall Regex.email_pattern text) : gset string).

(* ===================================================================== *)
(** ** The world of the scraper *)
(* ===================================================================== *)

(** Exceptions that can leave a method of [AIScraper].  [OSError] stands
    for the class and its subclasses ([FileNotFoundError], ..) and carries
    the text of the error. *)
Inductive exn : Type :=
| ValueError (msg : string)
| ZeroDivisionError (msg : string)
| OverflowError
| OSError (err : string).

Inductive outcome (A : Type) : Type :=
| Ok (a : A)
| Raise (e : exn).
Arguments Ok {A} a.
Arguments Raise {A} e.

(** What the search endpoint answers inside the [try] of [search_web]:
    an exception ([requests.get], [raise_for_status] or [json()]), or a JSON
    object with or without an ["items"] array, each item with or without a
    ["link"]. *)
Inductive search_reply : Type :=
| SearchFailed (err : string)
| SearchJson (items : option (list (option string))).

(** What a target page answers inside the [try] of [get_page_content]:
    an exception (timeout, transport error, non-2xx status), or
    [response.text]. *)
Inductive http_reply : Type :=
| HttpFailed (err : string)
| HttpText (body : string).

(** What the chat endpoint answers inside the [try] of [analyze_with_ai]. *)
Inductive chat_reply : Type :=
| ChatFailed (err : string)
| ChatContent (content : string).

Record message : Type := Message { role : string; content : string }.

(** The query parameters of the search request. *)
Record search_params : Type := SearchParams {
  key : option string;
  cx : option string;
  q : string;
  num : Z
}.

(** The dictionary returned by [analyze_with_ai]:
    [{"success": True, "analysis": ..}] or [{"success": False, "error": ..}]. *)
Inductive analysis : Type :=
| Analysis (text : string)
| AnalysisError (error : string).

(** The dictionary returned by [scrape_website]:
    [{"success": False, "error": ..}] or
    [{"success": True, "url": .., "emails": .., "ai_analysis": ..}]. *)
Inductive result : Type :=
| Failure (error : string)
| Success (url : string) (emails : list string) (ai_analysis : option string).

(** [result["success"]] *)
Definition success (r : result) : bool :=
  match r with
  | Success _ _ _ => true
  | Failure _ => false
  end.

(** [pd.DataFrame(results)]: one row per dictionary, in order. *)
Definition DataFrame : Type := list result.

(** What the process does to the world around it: the requests, each with
    the answer it got, the lines printed, the sleeps, and the directory and
    the file it has written. *)
Inductive action : Type :=
| SearchGet (params : search_params) (timeout : Z) (reply : search_reply)
| PageGet (url user_agent : string) (timeout : Z) (reply : http_reply)
| ChatCreate (model : string) (messages : list message) (reply : chat_reply)
| Print (msg : string)
| Sleep (secs : float)
| Makedirs (dir : string)
| ToCsv (dir file : string) (rows : DataFrame).

(** An action and the instant of the clock at which it was issued. *)
Record event : Type := Event { at_time : Q; what : action }.

(** What stays inside the process: console output and sleeping. *)
Definition is_local (a : action) : bool :=
  match a with
  | Print _ | Sleep _ => true
  | _ => false
  end.

(** The environment: whatever the outside world answers may depend on all
    that happened before (the trace so far) and on the request. *)
Record env : Type := Env {
  google_search : list event → search_params → search_reply;
  http_get : list event → string → string → http_reply;
  chat_completion : list event → list message → chat_reply;
  random_user_agent : list event → string;
  (** [BeautifulSoup(content, 'html.parser').get_text()] *)
  get_text : string → string;
  (** seconds a network request takes *)
  latency : list event → Q;
  (** the double [time.time()] returns at an instant of the clock *)
  read_clock : Q → float;
  (** seconds the clock moves on during [time.sleep(secs)] *)
  sleep_time : list event → float → Q;
  (** the error of [os.makedirs(dir, exist_ok=True)], if it fails *)
  makedirs_error : list event → string → option string;
  (** the error of [df.to_csv(os.path.join(dir, file), index=False)], if it
      fails *)
  to_csv_error : list event → string → string → option string
}.

(** The attributes [__init__] reads from the environment variables, and the
    two variables [bulk_scrape] reads itself. *)
Record config : Type := Config {
  rate_limit : float;
  timeout : Z;
  google_api_key : option string;
  search_engine_id : option string;
  OUTPUT_DIR : option string;
  CSV_FILENAME : option string
}.

(** The mutable part: the wall clock [now], the trace of external calls, and
    [self.last_request_time]. *)
Record state : Type := State {
  trace : list event;
  now : Q;
  last_request_time : float
}.

(** A scraper that has made no request yet, at some instant of the clock:
    [self.last_request_time] is [0], as [__init__] leaves it. *)
Definition init (clock : Q) : state :=
  {| trace := []; now := clock; last_request_time := 0%float |}.

(** Computations: state passing with exceptions. *)
Definition M (A : Type) : Type := state → outcome A * state.

Definition ret {A} (a : A) : M A := λ s, (Ok a, s).

Definition raise {A} (e : exn) : M A := λ s, (Raise e, s).

Definition bind {A B} (m : M A) (k : A → M B) : M B :=
  λ s, match m s with
       | (Ok a, s') => k a s'
       | (Raise e, s') => (Raise e, s')
       end.

Notation "'let!' x ':=' m 'in' k" := (bind m (λ x, k))
  (at level 10, x name, m at level 100, k at level 200).
Notation "'exec!' m 'in' k" := (bind m (λ _, k))
  (at level 10, m at level 100, k at level 200).

(** Python's truth value of an optional string: [None] and [''] are false. *)
Definition truthy (o : option string) : bool :=
  match o with
  | Some s => negb (bool_decide (s = ""))
  | None => false
  end.

(** What [time.sleep(secs)] raises instead of sleeping: [ValueError] for a
    NaN, [OverflowError] when the length in nanoseconds does not fit 64 bits,
    [ValueError] for a negative length. *)
Definition sleep_error (secs : float) : option exn :=
  if PrimFloat.is_nan secs then Some (ValueError "Invalid value NaN (not a number)")
  else if negb ((- 0x1p63 <=? secs * 1e9)%float && (secs * 1e9 <? 0x1p63)%float)
  then Some OverflowError
  else if (secs <? 0)%float then Some (ValueError "sleep length must be non-negative")
  else None.

(** [[item['link'] for item in items]]: the links, or the [KeyError] of the
    first item without one. *)
Fixpoint links (items : list (option string)) : string + list string :=
  match items with
  | [] => inr []
  | Some l :: items' =>
      match links items' with
      | inr ls => inr (l :: ls)
      | inl e => inl e
      end
  | None :: _ => inl "'link'"
  end.

Section Scraper.

Variable E : env.
Variable self : config.

(** *** Primitive effects *)

Definition emit (a : action) : M unit :=
  λ s, (Ok (), {| trace := trace s ++ [Event (now s) a];
                  now := now s;
                  last_request_time := last_request_time s |}).

(** Let [d] seconds pass. *)
Definition elapse (d : Q) : M unit :=
  λ s, (Ok (), {| trace := trace s;
                  now := (now s + d)%Q;
                  last_request_time := last_request_time s |}).

Definition history : M (list event) := λ s, (Ok (trace s), s).

(** [time.time()] *)
Definition time_time : M float := λ s, (Ok (read_clock E (now s)), s).

(** [time.sleep(secs)] *)
Definition time_sleep (secs : float) : M unit :=
  match sleep_error secs with
  | Some e => raise e
  | None =>
      let! h := history in
      exec! emit (Sleep secs) in
      elapse (sleep_time E h secs)
  end.

Definition get_last_request_time : M float :=
  λ s, (Ok (last_request_time s), s).

Definition set_last_request_time (t : float) : M unit :=
  λ s, (Ok (), {| trace := trace s; now := now s; last_request_time := t |}).

(** [print(msg)] *)
Definition print (msg : string) : M unit := emit (Print msg).

(** [a / b] on floats: Python raises where IEEE 754 divides by zero. *)
Definition py_div (a b : float) : M float :=
  if (b =? 0)%float then raise (ZeroDivisionError "float division by zero")
  else ret (a / b)%float.

(** [os.makedirs(dir, exist_ok=True)].  On the empty path [mkdir] fails
    with [ENOENT], and [exist_ok] does not help since the path is no
    directory. *)
Definition os_makedirs (dir : string) : M unit :=
  let! h := history in
  if bool_decide (dir = "") then
    raise (OSError "[Errno 2] No such file or directory: ''")
  else
    match makedirs_error E h dir with
    | Some err => raise (OSError err)
    | None => emit (Makedirs dir)
    end.

(** [df.to_csv(os.path.join(dir, file), index=False)] *)
Definition to_csv (df : DataFrame) (dir file : string) : M unit :=
  let! h := history in
  match to_csv_error E h dir file with
  | Some err => raise (OSError err)
  | None => emit (ToCsv dir file df)
  end.

(** The [requests.get .. raise_for_status .. json()] of [search_web]. *)
Definition search_request (params : search_params) : M search_reply :=
  let! h := history in
  let reply := google_search E h params in
  exec! emit (SearchGet params (timeout self) reply) in
  exec! elapse (latency E h) in
  ret reply.

(** The [requests.get .. raise_for_status .. text] of [get_page_content]. *)
Definition page_request (url user_agent : string) : M http_reply :=
  let! h := history in
  let reply := http_get E h url user_agent in
  exec! emit (PageGet url user_agent (timeout self) reply) in
  exec! elapse (latency E h) in
  ret reply.

(** [self.openai_client.chat.completions.create(..).choices[0].message.content] *)
Definition chat_request (model : string) (messages : list message) : M chat_reply :=
  let! h := history in
  let reply := chat_completion E h messages in
  exec! emit (ChatCreate model messages reply) in
  exec! elapse (latency E h) in
  ret reply.

(** [self.user_agent.random] *)
Definition user_agent_random : M string :=
  let! h := history in ret (random_user_agent E h).

(** *** The methods of [AIScraper] *)

Definition search_web (query : string) (max_results : Z) : M (list string) :=
  if negb (truthy (google_api_key self)) || negb (truthy (search_engine_id self)) then
    raise (ValueError "Google Custom Search API key and Search Engine ID are required")
  else
    let params := {| key := google_api_key self;
                     cx := search_engine_id self;
                     q := query;
                     num := Z.min max_results 10 |} in
    let! search_results := search_request params in
    match search_results with
    | SearchJson None => ret []
    | SearchJson (Some items) =>
        match links items with
        | inr urls => ret urls
        | inl e =>
            exec! print ("Error performing Google search: " +:+ e) in ret []
        end
    | SearchFailed e =>
        exec! print ("Error performing Google search: " +:+ e) in ret []
    end.

Definition _respect_rate_limit : M unit :=
  let! current_time := time_time in
  let! last := get_last_request_time in
  let time_since_last_request := (current_time - last)%float in
  let! interval := py_div 1 (rate_limit self) in
  exec! (if (time_since_last_request <? interval)%float
         then let! interval' := py_div 1 (rate_limit self) in
              time_sleep (interval' - time_since_last_request)%float
         else ret ()) in
  let! t := time_time in
  set_last_request_time t.

Definition get_page_content (url : string) : M (option string) :=
  exec! _respect_rate_limit in
  let! user_agent := user_agent_random in
  let! response := page_request url user_agent in
  match response with
  | HttpText text => ret (Some text)
  | HttpFailed e =>
      exec! print ("Error fetching " +:+ url +:+ ": " +:+ e) in ret None
  end.

Definition analyze_with_ai (content prompt : string) : M analysis :=
  let messages :=
    [ {| role := "system";
         content := "You are a helpful assistant that analyzes web content." |};
      {| role := "user";
         content := prompt +:+ nl +:+ nl +:+ "Content: " +:+ str_take 4000 content |} ] in
  let! response := chat_request "gpt-3.5-turbo" messages in
  match response with
  | ChatContent text => ret (Analysis text)
  | ChatFailed e => ret (AnalysisError e)
  end.

Definition scrape_website (url ai_prompt : string) : M result :=
  let! content := get_page_content url in
  if negb (truthy content) then ret (Failure "Failed to fetch content")
  else
    let content := default "" content in
    let text_content := get_text E content in
    let emails := extract_emails content in
    let! ai_analysis := analyze_with_ai text_content ai_prompt in
    ret (Success url emails
           match ai_analysis with
           | Analysis text => Some text
           | AnalysisError _ => None
           end).

(** The [for] loop of [bulk_scrape], with the list [results] built so far. *)
Fixpoint scrape_loop (urls : list string) (ai_prompt : string)
    (results : list result) : M (list result) :=
  match urls with
  | [] => ret results
  | url :: urls' =>
      let! result := scrape_website url ai_prompt in
      scrape_loop urls' ai_prompt
        (if success result then results ++ [result] else results)
  end.

Definition bulk_scrape (urls : list string) (ai_prompt : string) : M DataFrame :=
  let! results := scrape_loop urls ai_prompt [] in
  let df : DataFrame := results in
  let output_dir := default "output" (OUTPUT_DIR self) in
  exec! os_makedirs output_dir in
  exec! to_csv df output_dir (default "scraped_data.csv" (CSV_FILENAME self)) in
  ret df.

Definition search_and_analyze (search_query ai_prompt : string) (max_results : Z)
  : M DataFrame :=
  let! urls := search_web search_query max_results in
  match urls with
  | [] => exec! print "No search results found" in ret []
  | _ => bulk_scrape urls ai_prompt
  end.

End Scraper.

(* ===================================================================== *)
(** ** Reading a trace *)
(* ===================================================================== *)

(** The page requests of a trace with their answers, in order. *)
Definition fetches (t : list event) : list (string * http_reply) :=
  omap (λ e, match what e with
             | PageGet url _ _ reply => Some (url, reply)
             | _ => None
             end) t.

(** The instants at which the page requests of a trace were issued. *)
Definition request_times (t : list event) : list Q :=
  omap (λ e, match what e with
             | PageGet _ _ _ _ => Some (at_time e)
             | _ => None
             end) t.

(** The chat requests of a trace with their answers, in order. *)
Definition chats (t : list event) : list (list message * chat_reply) :=
  omap (λ e, match what e with
             | ChatCreate _ messages reply => Some (messages, reply)
             | _ => None
             end) t.

(** The tables written by a trace, in order. *)
Definition csv_writes (t : list event) : list DataFrame :=
  omap (λ e, match what e with
             | ToCsv _ _ rows => Some rows
             | _ => None
             end) t.

(** Nothing leaves the process in [t]: no request is made, no file written. *)
Definition quiet (t : list event) : Prop :=
  Forall (λ e, is_local (what e) = true) t.

(** What [get_page_content] returns for an answer. *)
Definition text_of (reply : http_reply) : option string :=
  match reply with
  | HttpText text => Some text
  | HttpFailed _ => None
  end.

(** The answer carries a body that is not empty. *)
Definition body_of (reply : http_reply) : option string :=
  match reply with
  | HttpText text => if bool_decide (text = "") then None else Some text
  | HttpFailed _ => None
  end.

(** The page requests of a trace that were answered with a non-empty body. *)
Definition fetched (t : list event) : list (string * string) :=
  omap (λ ur, pair ur.1 <$> body_of ur.2) (fetches t).

(** [r] is the row of [url] fetched with body [body]. *)
Definition row_of (r : result) (ub : string * string) : Prop :=
  ∃ a, r = Success ub.1 (extract_emails ub.2) a.

(** [result["url"]], when the dictionary has it. *)
Definition url_of (r : result) : option string :=
  match r with
  | Success url _ _ => Some url
  | Failure _ => None
  end.

(** What [analyze_with_ai] returns for an answer. *)
Definition analysis_of (reply : chat_reply) : analysis :=
  match reply with
  | ChatContent text => Analysis text
  | ChatFailed e => AnalysisError e
  end.

(** The [ai_analysis] entry [scrape_website] makes of an analysis. *)
Definition analysis_text (a : analysis) : option string :=
  match a with
  | Analysis text => Some text
  | AnalysisError _ => None
  end.

(** The two messages [analyze_with_ai] sends when the page content it puts
    into the request is [sent]. *)
Definition request_messages (prompt sent : string) : list message :=
  [ {| role := "system";
       content := "You are a helpful assistant that analyzes web content." |};
    {| role := "user";
       content := prompt +:+ nl +:+ nl +:+ "Content: " +:+ sent |} ].

(** The directory and file [bulk_scrape] writes to. *)
Definition csv_dir (self : config) : string := default "output" (OUTPUT_DIR self).
Definition csv_file (self : config) : string :=
  default "scraped_data.csv" (CSV_FILENAME self).

(** [r] carries the answer of the chat request [c]: its text, or [None]
    when the request failed. *)
Definition analysed (r : result) (c : list message * chat_reply) : Prop :=
  ∃ url emails, r = Success url emails (analysis_text (analysis_of c.2)).

(** The errors that can leave the rate limiter: the division by a rate
    limit of zero, and what [time.sleep] raises. *)
Inductive limiter_error (self : config) : exn → Prop :=
| zero_rate_limit :
    (rate_limit self =? 0)%float = true →
    limiter_error self (ZeroDivisionError "float division by zero")
| sleep_refused secs e :
    sleep_error secs = Some e → limiter_error self e.

(** The errors of writing the table: the output directory is the empty
    path, or the file system refuses the directory or the file. *)
Inductive write_error (E : env) (self : config) : exn → Prop :=
| no_directory :
    csv_dir self = "" →
    write_error E self (OSError "[Errno 2] No such file or directory: ''")
| makedirs_failed h err :
    makedirs_error E h (csv_dir self) = Some err →
    write_error E self (OSError err)
| to_csv_failed h err :
    to_csv_error E h (csv_dir self) (csv_file self) = Some err →
    write_error E self (OSError err).

(* ===================================================================== *)
(** ** A sample world *)
(* ===================================================================== *)

(** A page whose only address sits in a [mailto:] link. *)
Definition page_a : string :=
  "<p>Sales: <a href='mailto:bob@example.com'>write to us</a></p>".

(** Three sites: one answers with [page_a], one times out, one answers with
    an empty body. *)
Definition sample_http (url : string) : http_reply :=
  if bool_decide (url = "http://a.example") then HttpText page_a
  else if bool_decide (url = "http://b.example") then HttpFailed "Read timed out."
  else if bool_decide (url = "http://c.example") then HttpText ""
  else HttpText "<p>nothing here</p>".

(** The rational a double stands for ([0] for an infinity or a NaN). *)
Definition Q_of_float (x : float) : Q :=
  match Prim2SF x with
  | S754_finite sign m e =>
      let n := if sign then Z.neg m else Z.pos m in
      if (0 <=? e)%Z then inject_Z (n * 2 ^ e) else Qmake n (Z.to_pos (2 ^ (- e)))
  | _ => 0%Q
  end.

(** The double nearest to a rational. *)
Definition float_of_Q (q : Q) : float :=
  match Qnum q with
  | Z0 => 0%float
  | Zpos n =>
      SF2Prim (SFdiv prec emax (S754_finite false n 0) (S754_finite false (Qden q) 0))
  | Zneg n =>
      SF2Prim (SFdiv prec emax (S754_finite true n 0) (S754_finite false (Qden q) 0))
  end.

(** A world with a clock that is read to the nearest double, sleeps that
    last as long as asked, requests that take [lat] seconds and a file system
    that takes every directory but the empty path. *)
Definition sample_world (search : search_reply) (chat : chat_reply) (lat : Q) : env :=
  {| google_search := λ _ _, search;
     http_get := λ _ url _, sample_http url;
     chat_completion := λ _ _, chat;
     random_user_agent := λ _, "Mozilla/5.0";
     get_text := λ _, "Sales: write to us";
     latency := λ _, lat;
     read_clock := float_of_Q;
     sleep_time := λ _ secs, Q_of_float secs;
     makedirs_error := λ _ _, None;
     to_csv_error := λ _ _ _, None |}.

Definition sample_env (search : search_reply) (chat : chat_reply) : env :=
  sample_world search chat (1 # 10).

(** The same world with a disk that is full. *)
Definition full_disk_env (search : search_reply) (chat : chat_reply) : env :=
  {| google_search := λ _ _, search;
     http_get := λ _ url _, sample_http url;
     chat_completion := λ _ _, chat;
     random_user_agent := λ _, "Mozilla/5.0";
     get_text := λ _, "Sales: write to us";
     latency := λ _, (1 # 10)%Q;
     read_clock := float_of_Q;
     sleep_time := λ _ secs, Q_of_float secs;
     makedirs_error := λ _ _, None;
     to_csv_error := λ _ _ _, Some "[Errno 28] No space left on device" |}.

Definition sample_config : config :=
  {| rate_limit := 2%float;
     timeout := 30;
     google_api_key := Some "key";
     search_engine_id := Some "cx";
     OUTPUT_DIR := None;
     CSV_FILENAME := None |}.

(** [CUSTOM_SEARCH_API_KEY] is not set. *)
Definition config_without_key : config :=
  {| rate_limit := 2%float;
     timeout := 30;
     google_api_key := None;
     search_engine_id := Some "cx";
     OUTPUT_DIR := None;
     CSV_FILENAME := None |}.

Definition missing_credentials : string :=
  "Google Custom Search API key and Search Engine ID are required".

(* ===================================================================== *)
(** ** Shapes of matches *)
(* ===================================================================== *)

(** [e] reads [local@domain.tld]: a non-empty local part, a non-empty
    domain, a dot, and two letters or more, each part from its class. *)
Definition email_shaped (e : string) : Prop :=
  ∃ loc dom tld,
    e = loc +:+ "@" +:+ dom +:+ "." +:+ tld
    ∧ (1 ≤ String.length loc)%nat ∧ str_all Regex.local_part loc = true
    ∧ (1 ≤ String.length dom)%nat ∧ str_all Regex.domain_part dom = true
    ∧ (2 ≤ String.length tld)%nat ∧ str_all Regex.alpha tld = true.

(** The characters of a string. *)
Definition chars (s : string) : list ascii := list_ascii_of_string s.

(** [g0 m1 g1 m2 .. mk gk]: the pieces [ms] laid out in a row, with the texts
    [gaps] before, between and after them. *)
Fixpoint weave (gaps ms : list string) : string :=
  match gaps, ms with
  | g :: gaps', m :: ms' => g +:+ m +:+ weave gaps' ms'
  | g :: _, [] => g
  | [], _ => ""
  end.

(** [g] is empty or starts with a character that is not a letter. *)
Definition no_letter_first (g : string) : Prop :=
  match g with
  | String c _ => Regex.alpha c = false
  | "" => True
  end.

(** Behind every match of [ms], laid out with [gaps], the text ends or goes
    on with a character that is not a letter. *)
Fixpoint ends_of_letters (gaps ms : list string) : Prop :=
  match gaps, ms with
  | _ :: gaps', _ :: ms' =>
      no_letter_first (weave gaps' ms') ∧ ends_of_letters gaps' ms'
  | _, _ => True
  end.

(** What [get_page_content] prints at time [t] for an answer: the error
    line of the [except] branch, or nothing. *)
Definition fetch_log (url : string) (reply : http_reply) (t : Q) : list event :=
  match reply with
  | HttpFailed e => [Event t (Print ("Error fetching " +:+ url +:+ ": " +:+ e))]
  | HttpText _ => []
  end.

(** [MAX_REQUESTS_PER_SECOND] is set to [0]. *)
Definition config_zero_rate : config :=
  {| rate_limit := 0%float;
     timeout := 30;
     google_api_key := Some "key";
     search_engine_id := Some "cx";
     OUTPUT_DIR := None;
     CSV_FILENAME := None |}.

(** [MAX_REQUESTS_PER_SECOND] is set to [3]: an interval of a third of a
    second, which no double is. *)
Definition config_three_per_second : config :=
  {| rate_limit := 3%float;
     timeout := 30;
     google_api_key := Some "key";
     search_engine_id := Some "cx";
     OUTPUT_DIR := None;
     CSV_FILENAME := None |}.

(** [MAX_REQUESTS_PER_SECOND] is set to [2 ** -34], about [5.8e-11]: an
    interval of more seconds than [time.sleep] takes. *)
Definition config_tiny_rate : config :=
  {| rate_limit := 0x1p-34%float;
     timeout := 30;
     google_api_key := Some "key";
     search_engine_id := Some "cx";
     OUTPUT_DIR := None;
     CSV_FILENAME := None |}.

(** [OUTPUT_DIR] is set to the empty string. *)
Definition config_empty_output_dir : config :=
  {| rate_limit := 2%float;
     timeout := 30;
     google_api_key := Some "key";
     search_engine_id := Some "cx";
     OUTPUT_DIR := Some "";
     CSV_FILENAME := None |}.


(** The parameters [search_web] sends. *)
Definition params_of (self : config) (query : string) (max_results : Z)
  : search_params :=
  {| key := google_api_key self; cx := search_engine_id self;
     q := query; num := Z.min max_results 10 |}.

(** The messages of the analysis request for a page fetched with a body. *)
Definition analysis_request (E : env) (ai_prompt : string) (ub : string * string)
  : list message :=
  request_messages ai_prompt (str_take 4000 (get_text E ub.2)).

(** [s * n] *)
Fixpoint str_mul (s : string) (n : nat) : string :=
  match n with
  | O => ""
  | S n' => s +:+ str_mul s n'
  end.

(* ===================================================================== *)
(** ** [example.py]: what [print] makes of an address *)
(* ===================================================================== *)

(** [main] prints the addresses of a row as [f"Emails found: {row['emails']}"],
    which shows each of them as [repr] does. *)

Definition double_quote : ascii := Ascii.ascii_of_nat 34.
Definition backslash : ascii := Ascii.ascii_of_nat 92.
Definition tab : ascii := Ascii.ascii_of_nat 9.
Definition line_feed : ascii := Ascii.ascii_of_nat 10.
Definition carriage_return : ascii := Ascii.ascii_of_nat 13.

(** The [n]-th of the digits [0123456789abcdef]. *)
Definition hex_digit (n : nat) : ascii :=
  default "0"%char (chars "0123456789abcdef" !! n).

(** The two hexadecimal digits of a character code. *)
Definition hex2 (c : ascii) : string :=
  String (hex_digit (Ascii.nat_of_ascii c / 16))
    (String (hex_digit (Ascii.nat_of_ascii c mod 16)) "").

(** [str.isprintable] on one character, for codes up to 255: the ASCII
    characters from the space to the tilde, and the Latin-1 characters other
    than the controls, the no-break space and the soft hyphen. *)
Definition printable (c : ascii) : bool :=
  let n := Ascii.nat_of_ascii c in
  ((32 <=? n) && (n <? 127) || (161 <=? n) && negb (n =? 173))%nat.

(** The quote [repr] puts around a string: the double quote when the string
    has a single quote and no double quote, the single quote otherwise. *)
Definition repr_quote (s : string) : ascii :=
  if bool_decide ("'"%char ∈ chars s) && negb (bool_decide (double_quote ∈ chars s))
  then double_quote else "'"%char.

(** One character inside [repr]. *)
Definition repr_char (quote c : ascii) : string :=
  if bool_decide (c = quote) || bool_decide (c = backslash)
  then String backslash (String c "")
  else if bool_decide (c = tab) then String backslash "t"
  else if bool_decide (c = line_feed) then String backslash "n"
  else if bool_decide (c = carriage_return) then String backslash "r"
  else if printable c then String c ""
  else String backslash (String "x" (hex2 c)).

Fixpoint repr_body (quote : ascii) (s : string) : string :=
  match s with
  | "" => ""
  | String c s' => repr_char quote c +:+ repr_body quote s'
  end.

(** [repr(s)] for a string. *)
Definition py_repr (s : string) : string :=
  String (repr_quote s) (repr_body (repr_quote s) s +:+ String (repr_quote s) "").

(** The characters an address can be made of. *)
Definition email_char (c : ascii) : bool :=
  Regex.local_part c || Regex.domain_part c || bool_decide (c = "@"%char).

(* ===================================================================== *)
(** ** Strings: lemmas *)
(* ===================================================================== *)

Lemma str_app_cons c (a b : string) : String c a +:+ b = String c (a +:+ b).
Proof. reflexivity. Qed.


Lemma str_take_length n s : String.length (str_take n s) = Nat.min n (String.length s).
Proof.
  revert s; induction n as [|n IH]; intros [|c s]; simpl; try reflexivity.
  by rewrite IH.
Qed.

Lemma str_take_drop n s : str_take n s +:+ str_drop n s = s.
Proof.
  revert s; induction n as [|n IH]; intros [|c s]; simpl; try reflexivity.
  by rewrite str_app_cons, IH.
Qed.


Lemma str_app_length (a b : string) :
  String.length (a +:+ b) = (String.length a + String.length b)%nat.
Proof.
  induction a as [|x a IH]; [done |].
  rewrite str_app_cons. simpl. by rewrite IH.
Qed.

Lemma str_drop_length n s : String.length (str_drop n s) = (String.length s - n)%nat.
Proof.
  revert s; induction n as [|n IH]; intros [|c s]; simpl; try reflexivity.
  by rewrite IH.
Qed.

Lemma str_take_all n s : (String.length s ≤ n)%nat → str_take n s = s.
Proof.
  revert s; induction n as [|n IH]; intros [|c s]; simpl; try done; [lia |].
  intros H. rewrite IH; [done | lia].
Qed.

Lemma str_take_add j m s :
  (j ≤ String.length s)%nat →
  str_take (j + m) s = str_take j s +:+ str_take m (str_drop j s).
Proof.
  revert s; induction j as [|j IH]; intros s Hj; simpl.
  - by destruct m, s.
  - destruct s as [|c s]; simpl in *; [lia |].
    rewrite str_app_cons, IH; [done | lia].
Qed.

(* ===================================================================== *)
(** ** The matcher finds matches of the pattern *)
(* ===================================================================== *)

Module RegexFacts.
Import Regex.

Lemma span_le cls s : (span cls s ≤ String.length s)%nat.
Proof. induction s as [|c s IH]; simpl; [lia | destruct (cls c); simpl; lia]. Qed.

Lemma span_take cls j s :
  (j ≤ span cls s)%nat → str_all cls (str_take j s) = true.
Proof.
  revert s; induction j as [|j IH]; intros s Hj; [by destruct s |].
  destruct s as [|c s]; simpl in *; [lia |].
  destruct (cls c) eqn:Hc; [| lia].
  simpl. apply IH. lia.
Qed.

Lemma backtrack_unfold k lo n s :
  backtrack k lo n s =
  if (n <? lo)%nat then None
  else match k (str_drop n s) with
       | Some m => Some (n + m)%nat
       | None => match n with O => None | S n' => backtrack k lo n' s end
       end.
Proof. by destruct n. Qed.

Lemma backtrack_some k lo n s r :
  backtrack k lo n s = Some r →
  ∃ j m, (lo ≤ j ≤ n)%nat ∧ k (str_drop j s) = Some m ∧ r = (j + m)%nat.
Proof.
  induction n as [|n IH]; rewrite backtrack_unfold;
    (destruct (_ <? lo)%nat eqn:Hlo; [done |]);
    apply Nat.ltb_ge in Hlo;
    (destruct (k (str_drop _ s)) as [m|] eqn:Hk; [intros [= <-] |]).
  - exists 0%nat, m. split_and!; [lia | lia | done | done].
  - done.
  - exists (S n), m. split_and!; [lia | lia | done | done].
  - intros H. destruct (IH H) as (j & m & Hj & Hm & ->).
    exists j, m. split_and!; [lia | lia | done | done].
Qed.

(** The engine only reports prefixes of the text that match the pattern. *)
Lemma match_here_sound p s n :
  match_here p s = Some n →
  (n ≤ String.length s)%nat ∧ matches p (str_take n s).
Proof.
  revert s n; induction p as [|[c|cls lo] p IH]; intros s n; simpl.
  - intros [= <-]. split; [lia |]. destruct s; constructor.
  - destruct s as [|c' s]; [done |].
    destruct (Ascii.eqb c c') eqn:Hc; [| done].
    apply Ascii.eqb_eq in Hc as <-.
    destruct (match_here p s) as [m|] eqn:Hm; [| done].
    simpl. intros [= <-].
    destruct (IH _ _ Hm) as [Hle Hmatch].
    split; [simpl; lia |]. simpl. by constructor.
  - intros H. apply backtrack_some in H as (j & m & Hj & Hm & ->).
    destruct (IH _ _ Hm) as [Hle Hmatch].
    pose proof (span_le cls s) as Hspan.
    rewrite str_drop_length in Hle.
    split; [lia |].
    rewrite str_take_add by lia.
    constructor; [| | done].
    + rewrite str_take_length. lia.
    + apply span_take. lia.
Qed.

(** Every item of a scan is a piece of the text that matches the pattern. *)
Lemma scan_sound p skip s m :
  m ∈ scan p skip s → substring_of m s ∧ matches p m.
Proof.
  revert skip; induction s as [|c s IH]; intros skip; simpl.
  - by intros ?%elem_of_nil.
  - assert (Hcons : ∀ k, m ∈ scan p k s → substring_of m (String c s) ∧ matches p m).
    { intros k Hk. destruct (IH _ Hk) as [(pre & post & ->) Hm].
      split; [| done]. by exists (String c pre), post. }
    destruct skip as [|k]; [| by apply Hcons].
    destruct (match_here p (String c s)) as [n|] eqn:Hn; [| by apply Hcons].
    intros [-> | Hin]%elem_of_cons; [| by eapply Hcons].
    split; [| by apply match_here_sound].
    exists "", (str_drop n (String c s)).
    by rewrite str_take_drop.
Qed.

Lemma findall_sound p text m :
  m ∈ findall p text → substring_of m text ∧ matches p m.
Proof. apply scan_sound. Qed.







Lemma email_match_nonempty w : matches email_pattern w → w ≠ "".
Proof.
  inversion 1 as [| | cls lo p u w' Hlo _ _]; subst.
  destruct u; simpl in *; [lia | done].
Qed.

(** *** The engine and the greedy reading agree *)









(** *** The scan and its description agree *)






Section Scanning.

Variable p : regex.
Hypothesis p_nonempty : ∀ w, matches p w → w ≠ "".





End Scanning.

End RegexFacts.



Example findall_ex1 :
  Regex.findall Regex.email_pattern
    "mail bob@example.com or <a href=mailto:al.ice+x@mail.ex-ample.org>, bob@example.com."
  = ["bob@example.com"; "al.ice+x@mail.ex-ample.org"; "bob@example.com"].
Proof. vm_compute. reflexivity. Qed.

Example findall_ex2 :
  Regex.findall Regex.email_pattern "a@b.c x@y.zz.q1 @b.com a@.com a@b..com"
  = ["x@y.zz"; "a@b..com"].
Proof. vm_compute. reflexivity. Qed.

Example extract_ex1 :
  extract_emails "bob@example.com, bob@example.com" = ["bob@example.com"].
Proof. vm_compute. reflexivity. Qed.

(* ===================================================================== *)
(** ** Running the methods *)
(* ===================================================================== *)

Lemma fetches_app t1 t2 : fetches (t1 ++ t2) = fetches t1 ++ fetches t2.
Proof. apply omap_app. Qed.

Lemma fetched_app t1 t2 : fetched (t1 ++ t2) = fetched t1 ++ fetched t2.
Proof. unfold fetched. by rewrite fetches_app, omap_app. Qed.

Lemma quiet_fetches t : quiet t → fetches t = [].
Proof.
  induction 1 as [|e t He _ IH]; [done |].
  change (e :: t) with ([e] ++ t).
  unfold fetches in *. rewrite omap_app, IH.
  destruct e as [? []]; done.
Qed.

Lemma quiet_chats t : quiet t → chats t = [].
Proof.
  induction 1 as [|e t He _ IH]; [done |].
  change (e :: t) with ([e] ++ t).
  unfold chats in *. rewrite omap_app, IH.
  destruct e as [? []]; done.
Qed.

Lemma quiet_csv_writes t : quiet t → csv_writes t = [].
Proof.
  induction 1 as [|e t He _ IH]; [done |].
  change (e :: t) with ([e] ++ t).
  unfold csv_writes in *. rewrite omap_app, IH.
  destruct e as [? []]; done.
Qed.

Section Runs.

Variable E : env.
Variable self : config.

(** The rate limiter, statement by statement. *)
Lemma respect_rate_limit_eq s :
  _respect_rate_limit E self s
  = if (rate_limit self =? 0)%float
    then (Raise (ZeroDivisionError "float division by zero"), s)
    else
      let interval := (1 / rate_limit self)%float in
      let since := (read_clock E (now s) - last_request_time s)%float in
      if (since <? interval)%float then
        match sleep_error (interval - since) with
        | Some e => (Raise e, s)
        | None =>
            let woke := (now s + sleep_time E (trace s) (interval - since))%Q in
            (Ok (), {| trace := trace s ++ [Event (now s) (Sleep (interval - since))];
                       now := woke;
                       last_request_time := read_clock E woke |})
        end
      else (Ok (), {| trace := trace s; now := now s;
                      last_request_time := read_clock E (now s) |}).
Proof.
  unfold _respect_rate_limit, time_time, get_last_request_time, py_div, bind at 1 2 3.
  destruct (rate_limit self =? 0)%float; [done |].
  cbv zeta. unfold ret at 1.
  destruct (_ <? _)%float; [| done].
  unfold bind at 2, ret at 1, time_sleep.
  by destruct (sleep_error _).
Qed.

Lemma respect_rate_limit_outcome s :
  match _respect_rate_limit E self s with
  | (Ok _, s1) => ∃ pre, trace s1 = trace s ++ pre ∧ quiet pre
  | (Raise e, s1) => s1 = s ∧ limiter_error self e
  end.
Proof.
  rewrite respect_rate_limit_eq.
  destruct (rate_limit self =? 0)%float eqn:Hzero; [by split; [| constructor] |].
  cbv zeta. destruct (_ <? _)%float.
  - destruct (sleep_error _) as [e|] eqn:Hsleep.
    + split; [done | by econstructor].
    + eexists [_]. split; [done | repeat constructor].
  - exists []. split; [by rewrite app_nil_r | constructor].
Qed.

(** What [get_page_content] does once the rate limiter has let it go. *)
Lemma get_page_content_after s1 url s :
  _respect_rate_limit E self s = (Ok (), s1) →
  let ua := random_user_agent E (trace s1) in
  let reply := http_get E (trace s1) url ua in
  get_page_content E self url s
  = (Ok (text_of reply),
     {| trace := trace s1
                 ++ Event (now s1) (PageGet url ua (timeout self) reply)
                    :: fetch_log url reply (now s1 + latency E (trace s1));
        now := (now s1 + latency E (trace s1))%Q;
        last_request_time := last_request_time s1 |}).
Proof.
  intros Hrun ua reply.
  unfold get_page_content, bind at 1. rewrite Hrun.
  unfold user_agent_random, page_request, history, emit, elapse, print, emit, bind, ret.
  fold ua. fold reply.
  destruct reply as [err | text]; simpl; [| done].
  by rewrite <- app_assoc.
Qed.

Lemma get_page_content_raises e s1 url s :
  _respect_rate_limit E self s = (Raise e, s1) →
  get_page_content E self url s = (Raise e, s1).
Proof. intros Hrun. unfold get_page_content, bind. by rewrite Hrun. Qed.

Lemma quiet_fetch_log url reply t : quiet (fetch_log url reply t).
Proof. destruct reply; repeat constructor. Qed.

Lemma get_page_content_outcome url s :
  match get_page_content E self url s with
  | (Ok c, s') =>
      ∃ pre post reply ua t,
        c = text_of reply
        ∧ trace s' = trace s ++ pre ++ Event t (PageGet url ua (timeout self) reply) :: post
        ∧ quiet pre ∧ quiet post
  | (Raise e, s') => s' = s ∧ limiter_error self e
  end.
Proof.
  pose proof (respect_rate_limit_outcome s) as Hlim.
  destruct (_respect_rate_limit E self s) as [[[] | e] s1] eqn:Hrun.
  - destruct Hlim as (pre & Htr & Hpre).
    rewrite (get_page_content_after _ url _ Hrun). cbv zeta.
    eexists pre, _, _, _, _. split_and!; [done | | done | apply quiet_fetch_log].
    simpl. by rewrite Htr, <- app_assoc.
  - by rewrite (get_page_content_raises _ _ url _ Hrun).
Qed.

Lemma analyze_with_ai_run content prompt s :
  let messages := request_messages prompt (str_take 4000 content) in
  let reply := chat_completion E (trace s) messages in
  analyze_with_ai E content prompt s =
  (Ok (analysis_of reply),
   {| trace := trace s ++ [Event (now s) (ChatCreate "gpt-3.5-turbo" messages reply)];
      now := (now s + latency E (trace s))%Q;
      last_request_time := last_request_time s |}).
Proof.
  intros messages reply.
  unfold analyze_with_ai, chat_request, history, emit, elapse, bind, ret.
  fold (request_messages prompt (str_take 4000 content)). fold messages reply.
  by destruct reply.
Qed.

Lemma fetches_get url ua tm reply t pre post :
  quiet pre → quiet post →
  fetches (pre ++ Event t (PageGet url ua tm reply) :: post) = [(url, reply)].
Proof.
  intros Hpre Hpost.
  change (Event t (PageGet url ua tm reply) :: post)
    with ([Event t (PageGet url ua tm reply)] ++ post).
  by rewrite !fetches_app, (quiet_fetches pre), (quiet_fetches post).
Qed.

Lemma fetches_chat t model messages reply :
  fetches [Event t (ChatCreate model messages reply)] = [].
Proof. reflexivity. Qed.

Lemma chats_app t1 t2 : chats (t1 ++ t2) = chats t1 ++ chats t2.
Proof. apply omap_app. Qed.

Lemma csv_writes_app t1 t2 : csv_writes (t1 ++ t2) = csv_writes t1 ++ csv_writes t2.
Proof. apply omap_app. Qed.

Lemma chats_get url ua tm reply t pre post :
  quiet pre → quiet post →
  chats (pre ++ Event t (PageGet url ua tm reply) :: post) = [].
Proof.
  intros Hpre Hpost.
  change (Event t (PageGet url ua tm reply) :: post)
    with ([Event t (PageGet url ua tm reply)] ++ post).
  by rewrite !chats_app, (quiet_chats pre), (quiet_chats post).
Qed.

Lemma csv_writes_get url ua tm reply t pre post :
  quiet pre → quiet post →
  csv_writes (pre ++ Event t (PageGet url ua tm reply) :: post) = [].
Proof.
  intros Hpre Hpost.
  change (Event t (PageGet url ua tm reply) :: post)
    with ([Event t (PageGet url ua tm reply)] ++ post).
  by rewrite !csv_writes_app, (quiet_csv_writes pre), (quiet_csv_writes post).
Qed.

(** One pass through the body of the loop of [bulk_scrape]: it ends with
    an error of the rate limiter before anything is done, or it makes one page
    request and, for a body that is not empty, one chat request. *)
Lemma scrape_website_outcome url ai_prompt s :
  match scrape_website E self url ai_prompt s with
  | (Ok r, s') =>
      ∃ reply d,
        trace s' = trace s ++ d
        ∧ fetches d = [(url, reply)]
        ∧ csv_writes d = []
        ∧ match body_of reply with
          | Some body =>
              ∃ answer,
                chats d = [(request_messages ai_prompt (str_take 4000 (get_text E body)),
                            answer)]
                ∧ r = Success url (extract_emails body) (analysis_text (analysis_of answer))
          | None => chats d = [] ∧ r = Failure "Failed to fetch content"
          end
  | (Raise e, s') => s' = s ∧ limiter_error self e
  end.
Proof.
  pose proof (get_page_content_outcome url s) as Hget.
  unfold scrape_website, bind at 1.
  destruct (get_page_content E self url s) as [[c | e] s1]; [| done].
  destruct Hget as (pre & post & reply & ua & t & -> & Htr & Hpre & Hpost).
  set (ev := Event t (PageGet url ua (timeout self) reply)) in *.
  assert (Hcsv : csv_writes (pre ++ ev :: post) = []) by by apply csv_writes_get.
  assert (Hchats : chats (pre ++ ev :: post) = []) by by apply chats_get.
  assert (Hfetches : fetches (pre ++ ev :: post) = [(url, reply)]) by by apply fetches_get.
  clearbody ev.
  destruct reply as [err | text]; simpl.
  - exists (HttpFailed err), (pre ++ ev :: post). simpl.
    split_and!; [exact Htr | done | exact Hcsv | done | done].
  - case_bool_decide as Hempty; simpl.
    + exists (HttpText text), (pre ++ ev :: post). simpl.
      rewrite bool_decide_eq_true_2 by done.
      split_and!; [exact Htr | done | exact Hcsv | done | done].
    + unfold bind. rewrite analyze_with_ai_run. simpl.
      eexists (HttpText text), _. simpl.
      rewrite bool_decide_eq_false_2 by done.
      split_and!.
      * rewrite Htr, <- !app_assoc. reflexivity.
      * by rewrite app_assoc, fetches_app, fetches_chat, app_nil_r.
      * by rewrite app_assoc, csv_writes_app, Hcsv.
      * eexists. split; [| reflexivity].
        by rewrite app_assoc, chats_app, Hchats, Htr.
Qed.

Lemma fetched_one url reply d :
  fetches d = [(url, reply)] →
  fetched d = match body_of reply with Some body => [(url, body)] | None => [] end.
Proof. unfold fetched. intros ->. simpl. by destruct (body_of reply). Qed.

(** The loop of [bulk_scrape].  When it gets to its end, every URL was
    requested once, in order, and the rows added to the table are those of the
    requests that brought back a non-empty body, each with its chat request.
    It ends early only with an error of the rate limiter, after the requests
    for some first URLs of the list. *)
Lemma scrape_loop_outcome urls ai_prompt :
  ∀ results s,
  match scrape_loop E self urls ai_prompt results s with
  | (Ok table, s') =>
      ∃ rows d,
        table = results ++ rows
        ∧ trace s' = trace s ++ d
        ∧ (fetches d).*1 = urls
        ∧ csv_writes d = []
        ∧ Forall2 row_of rows (fetched d)
        ∧ Forall2 analysed rows (chats d)
        ∧ (chats d).*1 = analysis_request E ai_prompt <$> fetched d
  | (Raise e, s') =>
      limiter_error self e
      ∧ ∃ d, trace s' = trace s ++ d
             ∧ csv_writes d = []
             ∧ (fetches d).*1 `prefix_of` urls
  end.
Proof.
  induction urls as [|url urls IH]; intros results s.
  - simpl. exists [], []. rewrite !app_nil_r. split_and!; done || constructor.
  - pose proof (scrape_website_outcome url ai_prompt s) as Hweb.
    cbn [scrape_loop]. unfold bind at 1.
    destruct (scrape_website E self url ai_prompt s) as [[r | e] s1].
    + destruct Hweb as (reply & d1 & Htr & Hf & Hcsv & Hr).
      specialize (IH (if success r then results ++ [r] else results) s1).
      destruct (scrape_loop E self urls ai_prompt _ s1) as [[table | e] s'].
      * destruct IH as (rows & d2 & -> & Htr' & Hf' & Hcsv' & Hrows & Hchats & Hreq).
        exists ((if success r then [r] else []) ++ rows), (d1 ++ d2).
        split_and!.
        -- destruct (success r); simpl; [| done]. by rewrite <- app_assoc.
        -- by rewrite Htr', Htr, app_assoc.
        -- by rewrite fetches_app, fmap_app, Hf, Hf'.
        -- by rewrite csv_writes_app, Hcsv, Hcsv'.
        -- rewrite fetched_app, (fetched_one _ _ _ Hf).
           apply Forall2_app; [| done].
           destruct (body_of reply) as [body|].
           ++ destruct Hr as (answer & _ & ->). simpl.
              constructor; [by eexists | constructor].
           ++ destruct Hr as [_ ->]. simpl. constructor.
        -- rewrite chats_app. apply Forall2_app; [| done].
           destruct (body_of reply) as [body|].
           ++ destruct Hr as (answer & -> & ->). simpl.
              constructor; [by eexists _, _ | constructor].
           ++ destruct Hr as [-> ->]. simpl. constructor.
        -- rewrite chats_app, fetched_app, !fmap_app, Hreq. f_equal.
           rewrite (fetched_one _ _ _ Hf).
           destruct (body_of reply) as [body|].
           ++ by destruct Hr as (answer & -> & _).
           ++ by destruct Hr as [-> _].
      * destruct IH as (Herr & d2 & Htr' & Hcsv' & Hf').
        split; [done |]. exists (d1 ++ d2). split_and!.
        -- by rewrite Htr', Htr, app_assoc.
        -- by rewrite csv_writes_app, Hcsv, Hcsv'.
        -- rewrite fetches_app, fmap_app, Hf. by apply prefix_cons.
    + destruct Hweb as [-> Herr]. split; [done |].
      exists []. rewrite app_nil_r. split_and!; [done | done | apply prefix_nil].
Qed.

(** [bulk_scrape].  When it returns, every URL was requested once, in
    order; the table holds the rows of the requests that brought back a
    non-empty body; the directory was made sure of and the table written, once
    and as the last things done.  It raises only an error of the rate limiter
    or of the write, and then no table was written. *)
Lemma bulk_scrape_outcome urls ai_prompt s :
  match bulk_scrape E self urls ai_prompt s with
  | (Ok df, s') =>
      ∃ d d0 t1 t2,
        trace s' = trace s ++ d
        ∧ d = d0 ++ [Event t1 (Makedirs (csv_dir self));
                     Event t2 (ToCsv (csv_dir self) (csv_file self) df)]
        ∧ csv_writes d0 = []
        ∧ (fetches d).*1 = urls
        ∧ csv_writes d = [df]
        ∧ Forall2 row_of df (fetched d)
        ∧ Forall2 analysed df (chats d)
        ∧ (chats d).*1 = analysis_request E ai_prompt <$> fetched d
  | (Raise e, s') =>
      (limiter_error self e ∨ write_error E self e)
      ∧ ∃ d, trace s' = trace s ++ d
             ∧ csv_writes d = []
             ∧ (fetches d).*1 `prefix_of` urls
  end.
Proof.
  pose proof (scrape_loop_outcome urls ai_prompt [] s) as Hloop.
  unfold bulk_scrape, bind at 1.
  destruct (scrape_loop E self urls ai_prompt [] s) as [[table | e] s1].
  - destruct Hloop as (rows & d & -> & Htr & Hf & Hcsv & Hrows & Hchats & Hreq).
    rewrite app_nil_l.
    fold (csv_dir self). fold (csv_file self).
    unfold os_makedirs, to_csv, history, emit, raise, bind, ret.
    assert (Hraise : ∀ e, write_error E self e →
              (limiter_error self e ∨ write_error E self e)
              ∧ ∃ d1, trace s1 = trace s ++ d1
                      ∧ csv_writes d1 = []
                      ∧ (fetches d1).*1 `prefix_of` urls).
    { intros e He. split; [by right |]. exists d. by rewrite Hf. }
    case_bool_decide as Hdir; [by apply Hraise; constructor |].
    destruct (makedirs_error E (trace s1) (csv_dir self)) as [err|] eqn:Hmk;
      [by apply Hraise; econstructor |].
    cbn [trace now last_request_time].
    destruct (to_csv_error E _ (csv_dir self) (csv_file self)) as [err|] eqn:Hcsvw.
    + split; [right; by econstructor |].
      exists (d ++ [Event (now s1) (Makedirs (csv_dir self))]). split_and!.
      * cbn [trace]. by rewrite Htr, <- app_assoc.
      * by rewrite csv_writes_app, Hcsv.
      * by rewrite fetches_app, app_nil_r, Hf.
    + eexists _, d, _, _. split_and!.
      * cbn [trace]. rewrite Htr, <- !app_assoc. reflexivity.
      * reflexivity.
      * done.
      * by rewrite fetches_app, app_nil_r.
      * by rewrite csv_writes_app, Hcsv.
      * by rewrite fetched_app, app_nil_r.
      * by rewrite chats_app, app_nil_r.
      * by rewrite chats_app, fetched_app, !app_nil_r.
  - destruct Hloop as (Herr & d & Htr & Hcsv & Hf).
    split; [by left |]. by exists d.
Qed.

(** A run of [bulk_scrape] that returns. *)
Lemma bulk_scrape_returns urls ai_prompt s df s' :
  bulk_scrape E self urls ai_prompt s = (Ok df, s') →
  ∃ d, trace s' = trace s ++ d
    ∧ (fetches d).*1 = urls
    ∧ csv_writes d = [df]
    ∧ Forall2 row_of df (fetched d)
    ∧ Forall2 analysed df (chats d)
    ∧ (chats d).*1 = analysis_request E ai_prompt <$> fetched d.
Proof.
  intros Hrun. pose proof (bulk_scrape_outcome urls ai_prompt s) as H.
  rewrite Hrun in H.
  destruct H as (d & _ & _ & _ & Htr & _ & _ & H).
  by exists d.
Qed.

End Runs.

(* ===================================================================== *)
(** ** Search *)
(* ===================================================================== *)

(** C3. A run whose search credentials are missing (the API key or the
    search engine ID is unset or empty) aborts at [search_web] with a raised
    [ValueError]: [search_web] and with it [search_and_analyze] raise, and the
    state is the one the call started in, so nothing was requested, printed or
    written before. *)
Theorem missing_credentials_abort E self query ai_prompt max_results s :
  truthy (google_api_key self) = false ∨ truthy (search_engine_id self) = false →
  search_web E self query max_results s = (Raise (ValueError missing_credentials), s)
  ∧ search_and_analyze E self query ai_prompt max_results s
    = (Raise (ValueError missing_credentials), s).
Proof.
  intros H.
  assert (Hguard :
    negb (truthy (google_api_key self)) || negb (truthy (search_engine_id self)) = true).
  { destruct H as [-> | ->]; [done | by rewrite orb_true_r]. }
  assert (Hweb : search_web E self query max_results s
                 = (Raise (ValueError missing_credentials), s)).
  { unfold search_web. by rewrite Hguard. }
  split; [exact Hweb |].
  unfold search_and_analyze, bind. by rewrite Hweb.
Qed.

Lemma missing_credentials_abort_witness :
  search_web (sample_env (SearchJson None) (ChatContent "ok")) config_without_key
    "tech startups in Stockholm, Sweden" 5 (init 1000)
  = (Raise (ValueError missing_credentials), init 1000)
  ∧ search_and_analyze (sample_env (SearchJson None) (ChatContent "ok"))
      config_without_key "tech startups in Stockholm, Sweden" "Summarise." 5 (init 1000)
    = (Raise (ValueError missing_credentials), init 1000).
Proof.
  apply (missing_credentials_abort
           (sample_env (SearchJson None) (ChatContent "ok")) config_without_key).
  left. reflexivity.
Defined.

(** C2, as the code has it.  Where the API key or the search engine ID is
    missing, [search_web] raises [ValueError] and does nothing else.  In every
    other call it does not raise: it makes one request and returns the links of
    the answer; when the request fails, or an item has no link, the error is
    printed and the empty list returned; an answer without items gives the
    empty list. *)
Theorem search_web_raises_or_returns E self query max_results s :
  if truthy (google_api_key self) && truthy (search_engine_id self) then
    let params := {| key := google_api_key self; cx := search_engine_id self;
                     q := query; num := Z.min max_results 10 |} in
    let reply := google_search E (trace s) params in
    ∃ urls log s',
      search_web E self query max_results s = (Ok urls, s')
      ∧ trace s' = trace s ++ Event (now s) (SearchGet params (timeout self) reply) :: log
      ∧ now s' = (now s + latency E (trace s))%Q
      ∧ match reply with
        | SearchJson None => urls = [] ∧ log = []
        | SearchJson (Some items) =>
            match links items with
            | inr ls => urls = ls ∧ log = []
            | inl e =>
                urls = []
                ∧ log = [Event (now s') (Print ("Error performing Google search: " +:+ e))]
            end
        | SearchFailed e =>
            urls = []
            ∧ log = [Event (now s') (Print ("Error performing Google search: " +:+ e))]
        end
  else
    search_web E self query max_results s = (Raise (ValueError missing_credentials), s).
Proof.
  unfold search_web.
  destruct (truthy (google_api_key self)), (truthy (search_engine_id self)); simpl;
    try reflexivity.
  unfold search_request, history, emit, elapse, print, emit, bind, ret. simpl.
  destruct (google_search E (trace s) _) as [e | [items |]]; simpl.
  - eexists _, _, _. split_and!; simpl; rewrite <- ?app_assoc; reflexivity.
  - destruct (links items) as [e | ls]; simpl.
    + eexists _, _, _. split_and!; simpl; rewrite <- ?app_assoc; reflexivity.
    + eexists _, _, _. split_and!; simpl; reflexivity.
  - eexists _, _, _. split_and!; simpl; reflexivity.
Qed.

(** C2, as stated, fails: without an API key the call raises and returns no
    list. *)
Lemma search_web_raises_without_key :
  fst (search_web (sample_env (SearchJson None) (ChatContent "ok")) config_without_key
         "tech startups in Stockholm, Sweden" 5 (init 1000))
  = Raise (ValueError missing_credentials)
  ∧ fst (search_web (sample_env (SearchJson None) (ChatContent "ok")) config_without_key
           "tech startups in Stockholm, Sweden" 5 (init 1000))
    ≠ Ok [].
Proof. split; [reflexivity | discriminate]. Qed.

(** C8. When the credentials are there and the search answers with zero
    items (no ["items"] array, or an empty one), [search_web] returns the empty
    list and [search_and_analyze] returns the empty table; all it did was the
    search request and one line of console output: no page was requested, no
    chat request made, no file written. *)
Theorem no_results_no_fetch E self query ai_prompt max_results s items :
  truthy (google_api_key self) = true →
  truthy (search_engine_id self) = true →
  google_search E (trace s)
    {| key := google_api_key self; cx := search_engine_id self;
       q := query; num := Z.min max_results 10 |} = SearchJson items →
  items = None ∨ items = Some [] →
  ∃ s1 s' d,
    search_web E self query max_results s = (Ok [], s1)
    ∧ search_and_analyze E self query ai_prompt max_results s = (Ok [], s')
    ∧ trace s' = trace s ++ d
    ∧ d = [ Event (now s)
              (SearchGet {| key := google_api_key self; cx := search_engine_id self;
                            q := query; num := Z.min max_results 10 |}
                 (timeout self) (SearchJson items));
            Event (now s') (Print "No search results found") ]
    ∧ fetches d = [] ∧ chats d = [] ∧ csv_writes d = [].
Proof.
  intros Hkey Hcx Hreply Hitems.
  assert (Hweb : ∃ s1, search_web E self query max_results s = (Ok [], s1)
                       ∧ trace s1 = trace s ++ [Event (now s)
                           (SearchGet {| key := google_api_key self;
                                         cx := search_engine_id self;
                                         q := query; num := Z.min max_results 10 |}
                              (timeout self) (SearchJson items))]).
  { unfold search_web. rewrite Hkey, Hcx. simpl.
    unfold search_request, history, emit, elapse, bind, ret. simpl.
    rewrite Hreply. destruct Hitems as [-> | ->]; simpl; by eexists. }
  destruct Hweb as (s1 & Hweb & Htr).
  exists s1. unfold search_and_analyze, bind at 1. rewrite Hweb.
  unfold print, emit, bind, ret. simpl.
  eexists _, _. split_and!; [done | done | | reflexivity | done | done | done].
  simpl. rewrite Htr, <- app_assoc. reflexivity.
Qed.

Lemma no_results_no_fetch_witness :
  ∃ s1 s' d,
    search_web (sample_env (SearchJson (Some [])) (ChatContent "ok")) sample_config
      "tech startups in Stockholm, Sweden" 5 (init 1000) = (Ok [], s1)
    ∧ search_and_analyze (sample_env (SearchJson (Some [])) (ChatContent "ok"))
        sample_config "tech startups in Stockholm, Sweden" "Summarise." 5 (init 1000)
      = (Ok [], s')
    ∧ trace s' = trace (init 1000) ++ d
    ∧ d = [ Event (now (init 1000))
              (SearchGet {| key := Some "key"; cx := Some "cx";
                            q := "tech startups in Stockholm, Sweden";
                            num := Z.min 5 10 |}
                 30 (SearchJson (Some [])));
            Event (now s') (Print "No search results found") ]
    ∧ fetches d = [] ∧ chats d = [] ∧ csv_writes d = [].
Proof.
  apply (no_results_no_fetch
           (sample_env (SearchJson (Some [])) (ChatContent "ok")) sample_config
           "tech startups in Stockholm, Sweden" "Summarise." 5 (init 1000) (Some []));
    [reflexivity | reflexivity | reflexivity | right; reflexivity].
Defined.

(* ===================================================================== *)
(** ** Analysis *)
(* ===================================================================== *)

(** C6. For every content and prompt, [analyze_with_ai] makes one chat
    request whose user message is the prompt, the separator and [sent], the
    first 4000 characters of the content: [sent] is a prefix of the content, it
    is never longer than 4000 characters, and it is the whole content when
    that is short enough. *)
Theorem analyze_with_ai_truncates E content prompt s :
  let sent := str_take 4000 content in
  let reply := chat_completion E (trace s) (request_messages prompt sent) in
  analyze_with_ai E content prompt s
  = (Ok (analysis_of reply),
     {| trace := trace s ++ [Event (now s)
                   (ChatCreate "gpt-3.5-turbo" (request_messages prompt sent) reply)];
        now := (now s + latency E (trace s))%Q;
        last_request_time := last_request_time s |})
  ∧ (String.length sent ≤ 4000)%nat
  ∧ String.length sent = Nat.min 4000 (String.length content)
  ∧ (∃ rest, content = sent +:+ rest)
  ∧ ((String.length content ≤ 4000)%nat → sent = content).
Proof.
  intros sent reply. split_and!.
  - apply analyze_with_ai_run.
  - unfold sent. rewrite str_take_length. apply Nat.le_min_l.
  - apply str_take_length.
  - exists (str_drop 4000 content). unfold sent. by rewrite str_take_drop.
  - apply str_take_all.
Qed.

(* ===================================================================== *)
(** ** One page *)
(* ===================================================================== *)



(* ===================================================================== *)
(** ** The rate limiter *)
(* ===================================================================== *)




Example rate_limiter_interval_rounds :
  (Q_of_float (1 / 3) < 1 # 3)%Q ∧ (Q_of_float (1 / 2) == 1 # 2)%Q.
Proof. vm_compute. split; reflexivity. Qed.

(** With readings of the clock as large as those of [time.time()] today, a
    second request that comes a millisecond after the first leaves more than
    a tenth of a microsecond early. *)
Example rate_limiter_epoch_clock :
  let E := sample_world (SearchJson None) (ChatContent "ok") (1 # 1000) in
  let run := (exec! get_page_content E config_three_per_second "http://a.example" in
              get_page_content E config_three_per_second "http://c.example")
               (init (17000000001 # 10)) in
  match request_times (trace (snd run)) with
  | [t1; t2] => (t2 - t1 < (1 # 3) - (1 # 10000000))%Q
  | _ => False
  end.
Proof. vm_compute. reflexivity. Qed.

(** An interval of more seconds than [time.sleep] takes: the call raises
    [OverflowError] before any request. *)
Example rate_limiter_sleep_refused :
  get_page_content (sample_env (SearchJson None) (ChatContent "ok")) config_tiny_rate
    "http://a.example" (init 1000)
  = (Raise OverflowError, init 1000).
Proof. vm_compute. reflexivity. Qed.

(* ===================================================================== *)
(** ** Bulk scraping *)
(* ===================================================================== *)

(** Every row of the table comes from a page request of the run that was
    answered with a non-empty body. *)
Lemma row_fetched df d r :
  Forall2 row_of df (fetched d) → r ∈ df →
  ∃ url body reply a,
    r = Success url (extract_emails body) a
    ∧ (url, reply) ∈ fetches d
    ∧ body_of reply = Some body.
Proof.
  intros Hrows Hr.
  apply list_elem_of_lookup in Hr as [i Hi].
  destruct (Forall2_lookup_l _ _ _ _ _ Hrows Hi) as ([url body] & Hk & a & ->).
  assert (Hin : (url, body) ∈ fetched d) by (apply list_elem_of_lookup; eauto).
  unfold fetched in Hin. apply list_elem_of_omap in Hin as ([url' reply] & Hin & Hbody).
  simpl in Hbody. destruct (body_of reply) as [body'|] eqn:Hb; [| done].
  injection Hbody as -> ->.
  by exists url, body, reply, a.
Qed.





(** The write can fail: with a full disk the run raises after the last
    URL, and with [OUTPUT_DIR] set to the empty string as well. *)
Example bulk_scrape_full_disk :
  fst (bulk_scrape (full_disk_env (SearchJson None) (ChatContent "A shop."))
         sample_config ["http://a.example"] "Summarise." (init 1000))
  = Raise (OSError "[Errno 28] No space left on device").
Proof. vm_compute. reflexivity. Qed.



Example bulk_scrape_sample :
  fst (bulk_scrape (sample_env (SearchJson None) (ChatContent "A shop."))
         sample_config ["http://b.example"; "http://a.example"; "http://c.example"]
         "Summarise." (init 1000))
  = Ok [Success "http://a.example" ["bob@example.com"] (Some "A shop.")].
Proof. vm_compute. reflexivity. Qed.

(** C10. A fetch that brings back the empty string is treated like a fetch
    that failed: [scrape_website] returns the failure result with the error
    ["Failed to fetch content"], as it does when the fetch returns [None], and
    makes no analysis request.  In a run of [bulk_scrape] that returns, every
    row belongs to a request answered with a non-empty body, so a URL whose
    requests were all answered with the empty string has no row. *)
Theorem empty_body_is_failed_fetch E self urls ai_prompt s :
  (∀ url content s0 s1,
     get_page_content E self url s0 = (Ok content, s1) →
     content = Some "" ∨ content = None →
     scrape_website E self url ai_prompt s0
     = (Ok (Failure "Failed to fetch content"), s1))
  ∧ ∀ df s',
      bulk_scrape E self urls ai_prompt s = (Ok df, s') →
      ∃ d, trace s' = trace s ++ d
        ∧ (fetches d).*1 = urls
        ∧ (∀ url, (∀ reply, (url, reply) ∈ fetches d → reply = HttpText "") →
             ∀ r, r ∈ df → url_of r ≠ Some url).
Proof.
  split.
  - intros url content s0 s1 Hfetch Hcontent.
    unfold scrape_website, bind. rewrite Hfetch.
    by destruct Hcontent as [-> | ->].
  - intros df s' Hrun.
    destruct (bulk_scrape_returns E self urls ai_prompt s df s' Hrun)
      as (d & Htr & Hf & Hcsv & Hrows & _).
    exists d. split_and!; [done | done |].
    intros url Hempty r Hr.
    destruct (row_fetched _ _ _ Hrows Hr) as (url' & body & reply & a & -> & Hin & Hb).
    simpl. intros [= ->].
    by rewrite (Hempty _ Hin) in Hb.
Qed.

Example scrape_website_empty_body :
  fst (scrape_website (sample_env (SearchJson None) (ChatContent "A shop."))
         sample_config "http://c.example" "Summarise." (init 1000))
  = Ok (Failure "Failed to fetch content")
  ∧ fst (get_page_content (sample_env (SearchJson None) (ChatContent "A shop."))
           sample_config "http://c.example" (init 1000))
    = Ok (Some "")
  ∧ fst (bulk_scrape (sample_env (SearchJson None) (ChatContent "A shop."))
           sample_config ["http://c.example"; "http://a.example"] "Summarise." (init 1000))
    = Ok [Success "http://a.example" ["bob@example.com"] (Some "A shop.")].
Proof. vm_compute. split_and!; reflexivity. Qed.

(* ===================================================================== *)
(** ** More on the matches of the email pattern *)
(* ===================================================================== *)

Lemma str_app_nil_r (a : string) : a +:+ "" = a.
Proof. induction a as [|c a IH]; [done |]. by rewrite str_app_cons, IH. Qed.

Lemma chars_app (a b : string) : chars (a +:+ b) = chars a ++ chars b.
Proof.
  unfold chars. induction a as [|c a IH]; [done |].
  rewrite str_app_cons. simpl. by rewrite IH.
Qed.

Lemma extract_emails_findall text e :
  e ∈ extract_emails text ↔ e ∈ Regex.findall Regex.email_pattern text.
Proof. unfold extract_emails. by rewrite elem_of_elements, elem_of_list_to_set. Qed.

Lemma matches_email_shaped e : Regex.matches Regex.email_pattern e → email_shaped e.
Proof.
  unfold Regex.email_pattern. intros H.
  inversion H as [| | ? ? ? loc w1 Hloc Hlocal H1]; subst; clear H.
  inversion H1 as [| ? ? w2 H2 |]; subst; clear H1.
  inversion H2 as [| | ? ? ? dom w3 Hdom Hdomain H3]; subst; clear H2.
  inversion H3 as [| ? ? w4 H4 |]; subst; clear H3.
  inversion H4 as [| | ? ? ? tld w5 Htld Halpha H5]; subst; clear H4.
  inversion H5; subst; clear H5.
  exists loc, dom, tld. rewrite str_app_nil_r. by split_and!.
Qed.

Lemma extract_emails_sound text e :
  e ∈ extract_emails text → Regex.substring_of e text ∧ email_shaped e.
Proof.
  intros He%extract_emails_findall.
  apply RegexFacts.findall_sound in He as [Hsub Hm].
  split; [done | by apply matches_email_shaped].
Qed.

(** X1. Every address [extract_emails] returns reads [local@domain.tld]:
    one or more characters of [[a-zA-Z0-9._%+-]], an [@], one or more
    characters of [[a-zA-Z0-9.-]], a dot, and two or more letters to the
    end. *)
Theorem extract_emails_shape text e :
  e ∈ extract_emails text → email_shaped e.
Proof. intros He. by apply extract_emails_sound in He as [_ ?]. Qed.

Lemma extract_emails_shape_witness :
  email_shaped "bob@example.com".
Proof.
  apply (extract_emails_shape page_a "bob@example.com").
  vm_compute. left.
Defined.

Lemma email_shaped_chars e :
  email_shaped e → "@"%char ∈ chars e ∧ "."%char ∈ chars e.
Proof.
  intros (loc & dom & tld & -> & _).
  rewrite !chars_app. split.
  - apply elem_of_app. right. simpl. left.
  - apply elem_of_app. right. simpl. right.
    apply elem_of_app. right. simpl. left.
Qed.

(** X2. A text without an [@], or without a dot, holds no address:
    [extract_emails] returns the empty list. *)
Theorem extract_emails_needs_at_and_dot text :
  "@"%char ∉ chars text ∨ "."%char ∉ chars text →
  extract_emails text = [].
Proof.
  intros Hmissing. apply elem_of_nil_inv. intros e He.
  apply extract_emails_sound in He as [(pre & post & ->) Hshape].
  apply email_shaped_chars in Hshape as [Hat Hdot].
  rewrite !chars_app in Hmissing.
  destruct Hmissing as [H | H]; apply H;
    apply elem_of_app; right; apply elem_of_app; by left.
Qed.

Lemma extract_emails_needs_at_and_dot_witness :
  extract_emails "write to bob at example.com" = [].
Proof.
  apply (extract_emails_needs_at_and_dot "write to bob at example.com").
  left.
  apply (bool_decide_unpack ("@"%char ∉ chars "write to bob at example.com")).
  vm_compute. exact I.
Defined.

Lemma weave_cons_char c g gs ms :
  weave (String c g :: gs) ms = String c (weave (g :: gs) ms).
Proof. by destruct ms. Qed.

(** The items of a scan are disjoint pieces of what is left of the text, in
    the order of the text. *)
Lemma scan_weave p s :
  ∀ skip, ∃ gaps,
    length gaps = S (length (Regex.scan p skip s))
    ∧ str_drop skip s = weave gaps (Regex.scan p skip s).
Proof.
  induction s as [|c s IH]; intros skip.
  - exists [""]. by destruct skip.
  - destruct skip as [|k].
    + simpl Regex.scan.
      destruct (Regex.match_here p (String c s)) as [[|n]|] eqn:Hm.
      * destruct (IH 0%nat) as ([|g gs] & Hlen & Hs); [done |].
        exists ("" :: String c g :: gs). split; [simpl in *; lia |].
        change (str_drop 0 s) with s in Hs.
        change (String c s = weave (String c g :: gs) (Regex.scan p 0 s)).
        by rewrite weave_cons_char, <- Hs.
      * destruct (IH n) as (gaps & Hlen & Hs).
        exists ("" :: gaps). split; [simpl in *; lia |].
        change (String c s
                = str_take (S n) (String c s) +:+ weave gaps (Regex.scan p n s)).
        rewrite <- Hs.
        change (str_drop n s) with (str_drop (S n) (String c s)).
        by rewrite str_take_drop.
      * destruct (IH 0%nat) as ([|g gs] & Hlen & Hs); [done |].
        exists (String c g :: gs). split; [done |].
        change (str_drop 0 s) with s in Hs.
        by rewrite weave_cons_char, <- Hs.
    + destruct (IH k) as (gaps & Hlen & Hs). by exists gaps.
Qed.

Lemma findall_email_shaped text :
  Forall email_shaped (Regex.findall Regex.email_pattern text).
Proof.
  apply Forall_forall. intros m Hm.
  apply RegexFacts.findall_sound in Hm as [_ Hm].
  by apply matches_email_shaped.
Qed.

(** X3. The matches [re.findall] reports for the email pattern are disjoint
    pieces of the text, in the order in which they stand in it: the text is
    the first gap, the first match, the second gap, the second match and so
    on to the last gap, and each match reads [local@domain.tld]. *)
Theorem findall_disjoint_in_order text :
  ∃ gaps,
    length gaps = S (length (Regex.findall Regex.email_pattern text))
    ∧ text = weave gaps (Regex.findall Regex.email_pattern text)
    ∧ Forall email_shaped (Regex.findall Regex.email_pattern text).
Proof.
  destruct (scan_weave Regex.email_pattern text 0) as (gaps & Hlen & Hs).
  exists gaps. split_and!; [done | done | apply findall_email_shaped].
Qed.

Lemma email_shaped_length e : email_shaped e → (6 ≤ String.length e)%nat.
Proof.
  intros (loc & dom & tld & -> & Hloc & _ & Hdom & _ & Htld & _).
  rewrite !str_app_length. simpl. lia.
Qed.

Lemma weave_length ms :
  ∀ gaps, length gaps = S (length ms) →
  Forall email_shaped ms →
  (6 * length ms ≤ String.length (weave gaps ms))%nat.
Proof.
  induction ms as [|m ms IH]; intros gaps Hlen Hms; [simpl; lia |].
  destruct gaps as [|g gaps]; [done |].
  apply Forall_cons in Hms as [Hm Hms].
  apply email_shaped_length in Hm.
  assert (Hlen' : length gaps = S (length ms)) by (simpl in Hlen; lia).
  specialize (IH gaps Hlen' Hms).
  change (weave (g :: gaps) (m :: ms)) with (g +:+ m +:+ weave gaps ms).
  rewrite !str_app_length. simpl length. lia.
Qed.

(** X4. An address takes six characters at least and addresses do not
    overlap, so a text of [n] characters yields at most [n / 6] addresses. *)
Theorem extract_emails_count text :
  (6 * length (extract_emails text) ≤ String.length text)%nat.
Proof.
  destruct (scan_weave Regex.email_pattern text 0) as (gaps & Hlen & Hs).
  change (text = weave gaps (Regex.findall Regex.email_pattern text)) in Hs.
  change (length gaps = S (length (Regex.findall Regex.email_pattern text))) in Hlen.
  pose proof (weave_length _ gaps Hlen (findall_email_shaped text)) as Hw.
  rewrite <- Hs in Hw.
  assert (length (extract_emails text)
          ≤ length (Regex.findall Regex.email_pattern text))%nat; [| lia].
  apply submseteq_length, NoDup_submseteq.
  - unfold extract_emails. apply NoDup_elements.
  - intros e. apply extract_emails_findall.
Qed.

Lemma str_drop_add a b s : str_drop (a + b) s = str_drop b (str_drop a s).
Proof.
  revert s; induction a as [|a IH]; intros s; [done |].
  destruct s as [|c s]; [by destruct b |]. apply IH.
Qed.

Lemma span_stop cls s : match str_drop (Regex.span cls s) s with
                        | String c _ => cls c = false
                        | "" => True
                        end.
Proof.
  induction s as [|c s IH]; [done |].
  simpl Regex.span. destruct (cls c) eqn:Hc; [exact IH | exact Hc].
Qed.

Lemma match_here_lit c p s m :
  Regex.match_here (Regex.Lit c :: p) s = Some m →
  ∃ s' m', s = String c s' ∧ m = S m' ∧ Regex.match_here p s' = Some m'.
Proof.
  destruct s as [|c' s]; simpl; [done |].
  destruct (Ascii.eqb c c') eqn:Hc; [| done].
  apply Ascii.eqb_eq in Hc as <-.
  destruct (Regex.match_here p s) as [m'|] eqn:Hm; simpl; [| done].
  intros [= <-]. by exists s, m'.
Qed.

Lemma match_here_last_rep cls lo s m :
  Regex.match_here [Regex.Rep cls lo] s = Some m → m = Regex.span cls s.
Proof.
  simpl. rewrite RegexFacts.backtrack_unfold.
  destruct (_ <? lo)%nat; [done |]. simpl. intros [= <-]. lia.
Qed.

(** The engine follows the letters after the last dot to their end. *)
Lemma match_here_email_greedy s n :
  Regex.match_here Regex.email_pattern s = Some n →
  no_letter_first (str_drop n s).
Proof.
  unfold Regex.email_pattern. intros H.
  change (Regex.backtrack
            (Regex.match_here [Regex.Lit "@"; Regex.Rep Regex.domain_part 1;
                               Regex.Lit "."; Regex.Rep Regex.alpha 2])
            1 (Regex.span Regex.local_part s) s = Some n) in H.
  apply RegexFacts.backtrack_some in H as (j & m & _ & Hm & ->).
  apply match_here_lit in Hm as (s2 & m2 & Hs2 & -> & Hm2).
  change (Regex.backtrack
            (Regex.match_here [Regex.Lit "."; Regex.Rep Regex.alpha 2])
            1 (Regex.span Regex.domain_part s2) s2 = Some m2) in Hm2.
  apply RegexFacts.backtrack_some in Hm2 as (j2 & m3 & _ & Hm3 & ->).
  apply match_here_lit in Hm3 as (s3 & m4 & Hs3 & -> & Hm4).
  apply match_here_last_rep in Hm4 as ->.
  rewrite str_drop_add, Hs2.
  change (str_drop (S (j2 + S (Regex.span Regex.alpha s3))) (String "@" s2))
    with (str_drop (j2 + S (Regex.span Regex.alpha s3)) s2).
  rewrite str_drop_add, Hs3.
  change (str_drop (S (Regex.span Regex.alpha s3)) (String "." s3))
    with (str_drop (Regex.span Regex.alpha s3) s3).
  apply span_stop.
Qed.

Lemma scan_unfold p c s :
  Regex.scan p 0 (String c s)
  = match Regex.match_here p (String c s) with
    | Some n => str_take n (String c s) :: Regex.scan p (Nat.pred n) s
    | None => Regex.scan p 0 s
    end.
Proof. reflexivity. Qed.

Lemma scan_weave_greedy s :
  ∀ skip, ∃ gaps,
    length gaps = S (length (Regex.scan Regex.email_pattern skip s))
    ∧ str_drop skip s = weave gaps (Regex.scan Regex.email_pattern skip s)
    ∧ ends_of_letters gaps (Regex.scan Regex.email_pattern skip s).
Proof.
  induction s as [|c s IH]; intros skip.
  - exists [""]. by destruct skip.
  - destruct skip as [|k].
    + rewrite scan_unfold.
      destruct (Regex.match_here Regex.email_pattern (String c s)) as [[|n]|] eqn:Hm.
      * apply RegexFacts.match_here_sound in Hm as [_ Hm].
        by apply RegexFacts.email_match_nonempty in Hm.
      * destruct (IH n) as (gaps & Hlen & Hs & Hgaps).
        exists ("" :: gaps).
        split_and!; [cbn [length Nat.pred]; lia | |].
        -- change (String c s
                   = str_take (S n) (String c s)
                     +:+ weave gaps (Regex.scan Regex.email_pattern n s)).
           rewrite <- Hs.
           change (str_drop n s) with (str_drop (S n) (String c s)).
           by rewrite str_take_drop.
        -- split; [| exact Hgaps].
           apply match_here_email_greedy in Hm.
           change (str_drop (S n) (String c s)) with (str_drop n s) in Hm.
           by rewrite Hs in Hm.
      * destruct (IH 0%nat) as ([|g gs] & Hlen & Hs & Hgaps); [done |].
        exists (String c g :: gs). split_and!; [done | |].
        -- change (str_drop 0 s) with s in Hs.
           change (String c s
                   = weave (String c g :: gs) (Regex.scan Regex.email_pattern 0 s)).
           by rewrite weave_cons_char, <- Hs.
        -- by destruct (Regex.scan Regex.email_pattern 0 s).
    + destruct (IH k) as (gaps & Hlen & Hs & Hgaps). by exists gaps.
Qed.

(** X5. [re.findall] never stops an address in the middle of a run of
    letters: in the text, every match is followed by the end of the text or by
    a character that is not a letter, also where the next match begins right
    behind it. *)
Theorem findall_matches_run_to_end_of_letters text :
  ∃ gaps,
    length gaps = S (length (Regex.findall Regex.email_pattern text))
    ∧ text = weave gaps (Regex.findall Regex.email_pattern text)
    ∧ ends_of_letters gaps (Regex.findall Regex.email_pattern text).
Proof. exact (scan_weave_greedy text 0). Qed.

Example findall_adjacent_matches :
  Regex.findall Regex.email_pattern "x@y.com.z@w.net" = ["x@y.com"; ".z@w.net"]
  ∧ "x@y.com.z@w.net" = weave [""; ""; ""] ["x@y.com"; ".z@w.net"]
  ∧ ends_of_letters [""; ""; ""] ["x@y.com"; ".z@w.net"].
Proof. vm_compute. split_and!; done. Qed.

(* ===================================================================== *)
(** ** More on the rate limiter *)
(* ===================================================================== *)

Section Limiter.

Variable E : env.
Variable self : config.

(** X6. A call of [get_page_content] that comes when the time since the
    last request, as the limiter measures it, is not below the interval
    [1 / rate_limit] is not held back: it does not sleep, the request leaves
    at the time of the call, and the reading of the clock at that time becomes
    [last_request_time]. *)
Theorem get_page_content_not_delayed url s :
  (rate_limit self =? 0)%float = false →
  (read_clock E (now s) - last_request_time s <? 1 / rate_limit self)%float = false →
  let ua := random_user_agent E (trace s) in
  let reply := http_get E (trace s) url ua in
  get_page_content E self url s
  = (Ok (text_of reply),
     {| trace := trace s
                 ++ Event (now s) (PageGet url ua (timeout self) reply)
                    :: fetch_log url reply (now s + latency E (trace s));
        now := (now s + latency E (trace s))%Q;
        last_request_time := read_clock E (now s) |}).
Proof.
  intros Hrate Hlate.
  pose proof (respect_rate_limit_eq E self s) as Hlim.
  rewrite Hrate in Hlim. cbv zeta in Hlim. rewrite Hlate in Hlim.
  exact (get_page_content_after E self _ url s Hlim).
Qed.

(** X8. With a rate limit of zero the interval [1 / rate_limit] cannot be
    computed: [get_page_content] raises [ZeroDivisionError] before it does
    anything, and so do [scrape_website] and [bulk_scrape] on a list that is
    not empty; no request is made and no file written. *)
Theorem zero_rate_limit_raises url urls ai_prompt s :
  (rate_limit self =? 0)%float = true →
  get_page_content E self url s
  = (Raise (ZeroDivisionError "float division by zero"), s)
  ∧ scrape_website E self url ai_prompt s
    = (Raise (ZeroDivisionError "float division by zero"), s)
  ∧ bulk_scrape E self (url :: urls) ai_prompt s
    = (Raise (ZeroDivisionError "float division by zero"), s).
Proof.
  intros Hzero.
  pose proof (respect_rate_limit_eq E self s) as Hlim.
  rewrite Hzero in Hlim.
  assert (Hget : get_page_content E self url s
                 = (Raise (ZeroDivisionError "float division by zero"), s))
    by by apply get_page_content_raises.
  assert (Hscrape : scrape_website E self url ai_prompt s
                    = (Raise (ZeroDivisionError "float division by zero"), s)).
  { unfold scrape_website, bind. by rewrite Hget. }
  split_and!; [done | done |].
  unfold bulk_scrape, bind at 1. simpl scrape_loop. unfold bind at 1.
  by rewrite Hscrape.
Qed.

End Limiter.

Lemma get_page_content_not_delayed_witness :
  let E := sample_env (SearchJson None) (ChatContent "ok") in
  let s := init 1000 in
  let ua := random_user_agent E (trace s) in
  let reply := http_get E (trace s) "http://b.example" ua in
  get_page_content E sample_config "http://b.example" s
  = (Ok (text_of reply),
     {| trace := trace s
                 ++ Event (now s) (PageGet "http://b.example" ua (timeout sample_config) reply)
                    :: fetch_log "http://b.example" reply (now s + latency E (trace s));
        now := (now s + latency E (trace s))%Q;
        last_request_time := read_clock E (now s) |}).
Proof.
  apply (get_page_content_not_delayed
           (sample_env (SearchJson None) (ChatContent "ok")) sample_config
           "http://b.example" (init 1000)).
  - reflexivity.
  - vm_compute. reflexivity.
Defined.

Lemma zero_rate_limit_raises_witness :
  get_page_content (sample_env (SearchJson None) (ChatContent "ok")) config_zero_rate
    "http://a.example" (init 1000)
  = (Raise (ZeroDivisionError "float division by zero"), init 1000)
  ∧ scrape_website (sample_env (SearchJson None) (ChatContent "ok")) config_zero_rate
      "http://a.example" "Summarise." (init 1000)
    = (Raise (ZeroDivisionError "float division by zero"), init 1000)
  ∧ bulk_scrape (sample_env (SearchJson None) (ChatContent "ok")) config_zero_rate
      ["http://a.example"; "http://b.example"] "Summarise." (init 1000)
    = (Raise (ZeroDivisionError "float division by zero"), init 1000).
Proof.
  apply (zero_rate_limit_raises
           (sample_env (SearchJson None) (ChatContent "ok")) config_zero_rate
           "http://a.example" ["http://b.example"] "Summarise." (init 1000)).
  reflexivity.
Defined.

(* ===================================================================== *)
(** ** More on searching *)
(* ===================================================================== *)

Lemma links_all ls : links (Some <$> ls) = inr ls.
Proof.
  induction ls as [|l ls IH]; [done |].
  rewrite fmap_cons. cbn [links]. by rewrite IH.
Qed.

Lemma links_missing items : None ∈ items → links items = inl "'link'".
Proof.
  induction items as [|[l|] items IH]; intros Hin.
  - by apply elem_of_nil in Hin.
  - apply elem_of_cons in Hin as [? | Hin]; [done |].
    simpl. by rewrite IH.
  - done.
Qed.

Section Searching.

Variable E : env.
Variable self : config.
Hypothesis has_key : truthy (google_api_key self) = true.
Hypothesis has_cx : truthy (search_engine_id self) = true.

Lemma search_web_links query max_results s items ls :
  google_search E (trace s) (params_of self query max_results) = SearchJson (Some items) →
  links items = inr ls →
  search_web E self query max_results s
  = (Ok ls,
     {| trace := trace s ++ [Event (now s)
                   (SearchGet (params_of self query max_results) (timeout self)
                      (SearchJson (Some items)))];
        now := (now s + latency E (trace s))%Q;
        last_request_time := last_request_time s |}).
Proof.
  intros Hreply Hlinks. unfold search_web. rewrite has_key, has_cx. simpl.
  unfold search_request, history, emit, elapse, bind, ret. simpl.
  fold (params_of self query max_results). by rewrite Hreply, Hlinks.
Qed.

Lemma search_web_degraded query max_results s reply e :
  google_search E (trace s) (params_of self query max_results) = reply →
  reply = SearchFailed e
  ∨ (∃ items, reply = SearchJson (Some items) ∧ links items = inl e) →
  search_web E self query max_results s
  = (Ok [],
     {| trace := trace s
                 ++ [Event (now s)
                       (SearchGet (params_of self query max_results) (timeout self) reply);
                     Event (now s + latency E (trace s))
                       (Print ("Error performing Google search: " +:+ e))];
        now := (now s + latency E (trace s))%Q;
        last_request_time := last_request_time s |}).
Proof.
  intros Hreply Hkind. unfold search_web. rewrite has_key, has_cx. simpl.
  unfold search_request, history, emit, elapse, print, emit, bind, ret. simpl.
  fold (params_of self query max_results). rewrite Hreply.
  destruct Hkind as [-> | (items & -> & Hlinks)]; [| rewrite Hlinks]; simpl;
    by rewrite <- app_assoc.
Qed.

(** X10. [max_results] only goes into the request, as [num = min(max_results,
    10)]; the list that comes back is not cut.  When every item of the answer
    has a link, a run of [search_and_analyze] that returns has requested every
    one of these pages, in the order of the answer, and has written the table
    it returns, once. *)
Theorem search_and_analyze_fetches_every_link query ai_prompt max_results s ls df s' :
  google_search E (trace s) (params_of self query max_results)
  = SearchJson (Some (Some <$> ls)) →
  ls ≠ [] →
  search_and_analyze E self query ai_prompt max_results s = (Ok df, s') →
  ∃ d,
    trace s' =
      trace s
      ++ Event (now s)
           (SearchGet (params_of self query max_results) (timeout self)
              (SearchJson (Some (Some <$> ls))))
         :: d
    ∧ (fetches d).*1 = ls
    ∧ csv_writes d = [df].
Proof.
  intros Hreply Hne Hrun.
  pose proof (search_web_links query max_results s _ ls Hreply (links_all ls)) as Hweb.
  unfold search_and_analyze, bind at 1 in Hrun. rewrite Hweb in Hrun.
  destruct ls as [|l ls]; [done |].
  apply bulk_scrape_returns in Hrun as (d & Htr & Hf & Hcsv & _).
  exists d. split_and!; [| done | done].
  rewrite Htr. simpl. by rewrite <- app_assoc.
Qed.

(** X11. One item without a ["link"] spoils the whole answer: the [KeyError]
    is caught and printed, and [search_web] returns the empty list, also when
    other items have links. *)
Theorem search_web_item_without_link query max_results s items :
  google_search E (trace s) (params_of self query max_results) = SearchJson (Some items) →
  None ∈ items →
  search_web E self query max_results s
  = (Ok [],
     {| trace := trace s
                 ++ [Event (now s)
                       (SearchGet (params_of self query max_results) (timeout self)
                          (SearchJson (Some items)));
                     Event (now s + latency E (trace s))
                       (Print "Error performing Google search: 'link'")];
        now := (now s + latency E (trace s))%Q;
        last_request_time := last_request_time s |}).
Proof.
  intros Hreply Hin.
  apply (search_web_degraded query max_results s _ "'link'" Hreply).
  right. exists items. split; [done | by apply links_missing].
Qed.

(** X12. When the search request fails (transport error, HTTP status, bad
    JSON), [search_and_analyze] does not raise: it prints the error and the
    line ["No search results found"] and returns the empty table, without
    requesting a page, asking for an analysis or writing a file. *)
Theorem search_and_analyze_search_failed query ai_prompt max_results s e :
  google_search E (trace s) (params_of self query max_results) = SearchFailed e →
  ∃ s' d,
    search_and_analyze E self query ai_prompt max_results s = (Ok [], s')
    ∧ trace s' = trace s ++ d
    ∧ (what <$> d)
      = [ SearchGet (params_of self query max_results) (timeout self) (SearchFailed e);
          Print ("Error performing Google search: " +:+ e);
          Print "No search results found" ]
    ∧ fetches d = [] ∧ chats d = [] ∧ csv_writes d = [].
Proof.
  intros Hreply.
  pose proof (search_web_degraded query max_results s _ e Hreply (or_introl eq_refl))
    as Hweb.
  unfold search_and_analyze, bind at 1. rewrite Hweb.
  unfold print, emit, bind, ret. simpl.
  eexists _, _.
  split_and!;
    [done | simpl; rewrite <- app_assoc; reflexivity | done | done | done | done].
Qed.

End Searching.

Lemma search_and_analyze_fetches_every_link_witness :
  let E := sample_env
             (SearchJson (Some (Some <$> ["http://c.example"; "http://a.example";
                                          "http://b.example"])))
             (ChatContent "ok") in
  ∃ df s' d,
    search_and_analyze E sample_config "shops" "Summarise." 2 (init 1000) = (Ok df, s')
    ∧ trace s' =
        trace (init 1000)
        ++ Event (now (init 1000))
             (SearchGet (params_of sample_config "shops" 2) (timeout sample_config)
                (SearchJson (Some (Some <$> ["http://c.example"; "http://a.example";
                                             "http://b.example"]))))
           :: d
    ∧ (fetches d).*1 = ["http://c.example"; "http://a.example"; "http://b.example"]
    ∧ csv_writes d = [df].
Proof.
  intros E.
  destruct (search_and_analyze E sample_config "shops" "Summarise." 2 (init 1000))
    as [[df | e] s'] eqn:Hrun; [| vm_compute in Hrun; discriminate].
  destruct (search_and_analyze_fetches_every_link E sample_config eq_refl eq_refl
              "shops" "Summarise." 2 (init 1000)
              ["http://c.example"; "http://a.example"; "http://b.example"] df s'
              eq_refl ltac:(discriminate) Hrun) as (d & H).
  exists df, s', d. split; [reflexivity | exact H].
Defined.

Lemma search_web_item_without_link_witness :
  let E := sample_env (SearchJson (Some [Some "http://a.example"; None])) (ChatContent "ok") in
  let s := init 1000 in
  search_web E sample_config "shops" 5 s
  = (Ok [],
     {| trace := trace s
                 ++ [Event (now s)
                       (SearchGet (params_of sample_config "shops" 5) (timeout sample_config)
                          (SearchJson (Some [Some "http://a.example"; None])));
                     Event (now s + latency E (trace s))
                       (Print "Error performing Google search: 'link'")];
        now := (now s + latency E (trace s))%Q;
        last_request_time := last_request_time s |}).
Proof.
  apply (search_web_item_without_link
           (sample_env (SearchJson (Some [Some "http://a.example"; None])) (ChatContent "ok"))
           sample_config eq_refl eq_refl "shops" 5 (init 1000)
           [Some "http://a.example"; None]).
  - reflexivity.
  - right. left.
Defined.

Lemma search_and_analyze_search_failed_witness :
  let E := sample_env (SearchFailed "503 Server Error") (ChatContent "ok") in
  ∃ s' d,
    search_and_analyze E sample_config "shops" "Summarise." 5 (init 1000) = (Ok [], s')
    ∧ trace s' = trace (init 1000) ++ d
    ∧ (what <$> d)
      = [ SearchGet (params_of sample_config "shops" 5) (timeout sample_config)
            (SearchFailed "503 Server Error");
          Print ("Error performing Google search: " +:+ "503 Server Error");
          Print "No search results found" ]
    ∧ fetches d = [] ∧ chats d = [] ∧ csv_writes d = [].
Proof.
  apply (search_and_analyze_search_failed
           (sample_env (SearchFailed "503 Server Error") (ChatContent "ok"))
           sample_config eq_refl eq_refl "shops" "Summarise." 5 (init 1000)
           "503 Server Error").
  reflexivity.
Defined.

(* ===================================================================== *)
(** ** More on the table *)
(* ===================================================================== *)

Lemma fetched_sublist l :
  (omap (λ ur : string * http_reply, pair ur.1 <$> body_of ur.2) l).*1
  `sublist_of` l.*1.
Proof.
  induction l as [|[url reply] l IH]; [constructor |].
  simpl. destruct (body_of reply); simpl; by constructor.
Qed.

Lemma rows_urls df l : Forall2 row_of df l → omap url_of df = l.*1.
Proof.
  induction 1 as [|r [url body] df l [a ->] _ IH]; [done |].
  simpl. f_equal. exact IH.
Qed.

(** X13. The table never invents or reorders rows: in a run of
    [bulk_scrape] that returns, the URLs of the rows, read top to bottom, are
    the URL list with some entries left out, every row has a URL, and so the
    table has at most as many rows as the list has URLs. *)
Theorem bulk_scrape_rows_in_order E self urls ai_prompt s df s' :
  bulk_scrape E self urls ai_prompt s = (Ok df, s') →
  omap url_of df `sublist_of` urls
  ∧ length (omap url_of df) = length df
  ∧ (length df ≤ length urls)%nat.
Proof.
  intros Hrun.
  destruct (bulk_scrape_returns E self urls ai_prompt s df s' Hrun)
    as (d & Htr & Hf & Hcsv & Hrows & _).
  pose proof (rows_urls _ _ Hrows) as Hurls.
  assert (Hsub : omap url_of df `sublist_of` urls).
  { rewrite Hurls, <- Hf. apply fetched_sublist. }
  assert (Hlen : length (omap url_of df) = length df).
  { rewrite Hurls, length_fmap. symmetry. by eapply Forall2_length. }
  split_and!; [done | done |].
  rewrite <- Hlen. by apply sublist_length.
Qed.

Lemma bulk_scrape_rows_in_order_witness :
  ∃ df s',
    bulk_scrape (sample_env (SearchJson None) (ChatContent "ok")) sample_config
      ["http://b.example"; "http://a.example"; "http://c.example"; "http://a.example"]
      "Summarise." (init 1000) = (Ok df, s')
    ∧ omap url_of df
      `sublist_of` ["http://b.example"; "http://a.example"; "http://c.example";
                    "http://a.example"]
    ∧ length (omap url_of df) = length df
    ∧ (length df ≤ length ["http://b.example"; "http://a.example"; "http://c.example";
                           "http://a.example"])%nat.
Proof.
  destruct (bulk_scrape _ _ _ _ _) as [[df | e] s'] eqn:Hrun;
    [| vm_compute in Hrun; discriminate].
  exists df, s'. split; [reflexivity |].
  exact (bulk_scrape_rows_in_order _ _ _ _ _ df s' Hrun).
Defined.

(** X14. The emails of a row are those of the body its page was fetched
    with.  In a run of [bulk_scrape] that returns, the rows of the table and
    the page requests that were answered with a non-empty body correspond one
    to one, in order: a row has the URL of its request and the emails
    extracted from the body of its answer, and each of these addresses stands
    literally in that body and reads [local@domain.tld]. *)
Theorem bulk_scrape_emails_from_body E self urls ai_prompt s df s' :
  bulk_scrape E self urls ai_prompt s = (Ok df, s') →
  ∃ d,
    trace s' = trace s ++ d
    ∧ Forall2 (λ r ub,
         ∃ a, r = Success ub.1 (extract_emails ub.2) a
              ∧ ∀ e, e ∈ extract_emails ub.2 →
                     Regex.substring_of e ub.2 ∧ email_shaped e)
        df (fetched d).
Proof.
  intros Hrun.
  destruct (bulk_scrape_returns E self urls ai_prompt s df s' Hrun)
    as (d & Htr & Hf & Hcsv & Hrows & _).
  exists d. split; [done |].
  eapply Forall2_impl; [exact Hrows |].
  intros r ub [a ->]. exists a. split; [done |].
  intros e. apply extract_emails_sound.
Qed.

Lemma bulk_scrape_emails_from_body_witness :
  ∃ df s' d,
    bulk_scrape (sample_env (SearchJson None) (ChatContent "ok")) sample_config
      ["http://a.example"; "http://b.example"; "http://a.example"] "Summarise." (init 1000)
    = (Ok df, s')
    ∧ trace s' = trace (init 1000) ++ d
    ∧ Forall2 (λ r ub,
         ∃ a, r = Success ub.1 (extract_emails ub.2) a
              ∧ ∀ e, e ∈ extract_emails ub.2 →
                     Regex.substring_of e ub.2 ∧ email_shaped e)
        df (fetched d).
Proof.
  destruct (bulk_scrape _ _ _ _ _) as [[df | e] s'] eqn:Hrun;
    [| vm_compute in Hrun; discriminate].
  destruct (bulk_scrape_emails_from_body _ _ _ _ _ df s' Hrun) as (d & H).
  exists df, s', d. split; [reflexivity | exact H].
Defined.

Section Analyses.

Variable E : env.
Variable self : config.

(** X15. A run of [bulk_scrape] that returns has asked for exactly one
    analysis per page that was fetched with a non-empty body, in the order of
    the fetches, and for none where the fetch failed or brought back nothing;
    each request carries the prompt and the first 4000 characters of the
    parsed text of that page. *)
Theorem bulk_scrape_one_analysis_per_page urls ai_prompt s df s' :
  bulk_scrape E self urls ai_prompt s = (Ok df, s') →
  ∃ d,
    trace s' = trace s ++ d
    ∧ (chats d).*1 = analysis_request E ai_prompt <$> fetched d
    ∧ length (chats d) = length (fetched d).
Proof.
  intros Hrun.
  destruct (bulk_scrape_returns E self urls ai_prompt s df s' Hrun)
    as (d & Htr & _ & _ & _ & _ & Hreq).
  exists d. split_and!; [done | done |].
  rewrite <- (length_fmap snd (chats _)) at 1.
  rewrite <- (length_fmap (analysis_request E ai_prompt) (fetched _)).
  rewrite <- Hreq. by rewrite !length_fmap.
Qed.

(** X16. [analyze_with_ai] looks at the first 4000 characters of the
    content only: two contents that agree on them lead to the same request and
    the same result. *)
Theorem analyze_with_ai_ignores_the_rest content1 content2 prompt s :
  str_take 4000 content1 = str_take 4000 content2 →
  analyze_with_ai E content1 prompt s = analyze_with_ai E content2 prompt s.
Proof. intros Heq. by rewrite !analyze_with_ai_run, Heq. Qed.

End Analyses.

Lemma bulk_scrape_one_analysis_per_page_witness :
  let E := sample_env (SearchJson None) (ChatContent "ok") in
  ∃ df s' d,
    bulk_scrape E sample_config ["http://b.example"; "http://a.example"; "http://c.example"]
      "Summarise." (init 1000) = (Ok df, s')
    ∧ trace s' = trace (init 1000) ++ d
    ∧ (chats d).*1 = analysis_request E "Summarise." <$> fetched d
    ∧ length (chats d) = length (fetched d).
Proof.
  intros E.
  destruct (bulk_scrape _ _ _ _ _) as [[df | e] s'] eqn:Hrun;
    [| vm_compute in Hrun; discriminate].
  destruct (bulk_scrape_one_analysis_per_page E _ _ _ _ df s' Hrun) as (d & H).
  exists df, s', d. split; [reflexivity | exact H].
Defined.

Lemma analyze_with_ai_ignores_the_rest_witness :
  let E := sample_env (SearchJson None) (ChatContent "ok") in
  analyze_with_ai E (str_mul "a" 4000 +:+ "left out") "Summarise." (init 1000)
  = analyze_with_ai E (str_mul "a" 4000 +:+ "also left out") "Summarise." (init 1000).
Proof.
  apply (analyze_with_ai_ignores_the_rest
           (sample_env (SearchJson None) (ChatContent "ok"))
           (str_mul "a" 4000 +:+ "left out") (str_mul "a" 4000 +:+ "also left out")).
  vm_compute. reflexivity.
Defined.

(* ===================================================================== *)
(** ** When the table cannot be written *)
(* ===================================================================== *)



Example bulk_scrape_empty_output_dir_sample :
  fst (bulk_scrape (sample_env (SearchJson None) (ChatContent "ok")) config_empty_output_dir
         ["http://a.example"; "http://b.example"] "Summarise." (init 1000))
  = Raise (OSError "[Errno 2] No such file or directory: ''").
Proof. vm_compute. reflexivity. Qed.

(* ===================================================================== *)
(** ** Printing addresses *)
(* ===================================================================== *)

Lemma str_all_app cls (a b : string) :
  str_all cls (a +:+ b) = str_all cls a && str_all cls b.
Proof.
  induction a as [|c a IH]; [done |].
  rewrite str_app_cons. simpl. by rewrite IH, andb_assoc.
Qed.

Lemma str_all_mono (P Q : ascii → bool) s :
  (∀ c, P c = true → Q c = true) → str_all P s = true → str_all Q s = true.
Proof.
  intros HPQ. induction s as [|c s IH]; [done |]. simpl.
  intros [Hc Hs]%andb_true_iff. by rewrite (HPQ c Hc), IH.
Qed.

Lemma email_shaped_all e : email_shaped e → str_all email_char e = true.
Proof.
  intros (loc & dom & tld & -> & _ & Hloc & _ & Hdom & _ & Htld).
  rewrite !str_all_app.
  rewrite (str_all_mono Regex.local_part email_char loc), (str_all_mono Regex.domain_part email_char dom),
    (str_all_mono Regex.alpha email_char tld); try done.
  - unfold email_char, Regex.domain_part. intros c ->. by rewrite orb_true_r.
  - unfold email_char. intros c ->. by rewrite orb_true_r.
  - unfold email_char. by intros c ->.
Qed.

Lemma email_char_plain c :
  email_char c = true → repr_char "'" c = String c "" ∧ c ≠ "'"%char.
Proof.
  destruct c as [[] [] [] [] [] [] [] []]; vm_compute; intros H;
    first [discriminate H | split; [reflexivity | discriminate]].
Qed.

Lemma repr_body_plain s :
  str_all email_char s = true → repr_body "'" s = s ∧ "'"%char ∉ chars s.
Proof.
  induction s as [|c s IH]; [split; [done | apply not_elem_of_nil] |].
  simpl. intros [Hc Hs]%andb_true_iff.
  destruct (email_char_plain c Hc) as [-> Hne], (IH Hs) as [-> Hnot].
  split; [done |]. unfold chars in *. simpl.
  intros [? | ?]%elem_of_cons; [by apply Hne | by apply Hnot].
Qed.

(** X19. In the line [Emails found: ..] an address of [extract_emails]
    stands as it is between single quotes: it holds no character that [repr]
    would escape. *)
Theorem extracted_email_prints_plain text e :
  e ∈ extract_emails text → py_repr e = "'" +:+ e +:+ "'".
Proof.
  intros He. apply extract_emails_sound in He as [_ Hshape].
  destruct (repr_body_plain e (email_shaped_all e Hshape)) as [Hbody Hquote].
  unfold py_repr, repr_quote.
  rewrite (bool_decide_eq_false_2 _ Hquote). simpl. by rewrite Hbody.
Qed.

Lemma extracted_email_prints_plain_witness :
  py_repr "bob@example.com" = "'" +:+ "bob@example.com" +:+ "'".
Proof.
  apply (extracted_email_prints_plain page_a "bob@example.com").
  vm_compute. left.
Defined.
